(** * VPAT analyzer: the PDF triage and extraction pipeline

    A shallow embedding of [analyze_vpat.py] and of the upload view of
    [app.py].  Python strings are sequences of Unicode code points.
    The PDF library, the model provider, the file system and the
    console are an environment the pipeline calls into: opening a
    document, rendering a page, creating the scratch directory, writing
    and reading a scratch file, requesting a completion and printing
    may each raise, an exception being an instance of [Exception] or of
    another class of [BaseException]; the provider may answer the same
    request differently from one call to the next; and two paths may
    name the same file.  Every call is recorded in an event log, so
    that what was called, how often and in which order can be stated.

    What is taken for granted: reading the text of a page of an open
    document and closing a document do not raise; a write that raises
    leaves the store as it was; which file a path names does not
    change during one run, and neither does the document at a path. *)

From Stdlib Require Import Ascii String.
From stdpp Require Import base numbers option list strings gmap pretty.

Local Open Scope N_scope.
Local Open Scope nat_scope.

(** ** Python strings *)

Module PyStr.

(** A [str] is a sequence of code points. *)
Abbreviation char := N (only parsing).
Abbreviation str := (list N) (only parsing).

(** A literal of the source, all of which are ASCII. *)
Fixpoint lit (s : string) : str :=
  match s with
  | EmptyString => []
  | String a s' => N_of_ascii a :: lit s'
  end.

(** The line feed, the separator of [split("\n")] and ["\n".join]. *)
Definition LF : char := 10%N.

(** [str.isspace] on one code point: the characters [str.strip()]
    removes when called without an argument. *)
Definition isspace (c : char) : bool :=
  ((9 <=? c) && (c <=? 13))%N
  || ((28 <=? c) && (c <=? 32))%N
  || (c =? 133)%N || (c =? 160)%N || (c =? 5760)%N
  || ((8192 <=? c) && (c <=? 8202))%N
  || (c =? 8232)%N || (c =? 8233)%N || (c =? 8239)%N
  || (c =? 8287)%N || (c =? 12288)%N.

(** [s.lstrip()] *)
Fixpoint lstrip (s : str) : str :=
  match s with
  | [] => []
  | c :: s' => if isspace c then lstrip s' else s
  end.

(** [s.rstrip()] *)
Definition rstrip (s : str) : str := reverse (lstrip (reverse s)).

(** [s.strip()] *)
Definition strip (s : str) : str := rstrip (lstrip s).

(** [s.split(sep)] for a one-character separator: never the empty list. *)
Fixpoint split (sep : char) (s : str) : list str :=
  match s with
  | [] => [[]]
  | c :: s' =>
      if (c =? sep)%N then [] :: split sep s'
      else match split sep s' with
           | [] => [[c]]
           | l :: ls => (c :: l) :: ls
           end
  end.

(** [sep.join(ls)] *)
Fixpoint join (sep : str) (ls : list str) : str :=
  match ls with
  | [] => []
  | [l] => l
  | l :: ls' => l ++ sep ++ join sep ls'
  end.

(** Truth value of a string: non-empty. *)
Definition truthy (s : str) : bool :=
  match s with [] => false | _ => true end.

(** [f"{n}"] for a non-negative integer. *)
Definition decimal (n : nat) : str := lit (pretty n).

End PyStr.
Import PyStr.


(** ** Exceptions and results *)

(** A raised exception, with what [str(e)] gives: an instance of a
    subclass [cls] of Python's [Exception], or an instance of a class
    [cls] that derives from [BaseException] and not from [Exception]
    ([KeyboardInterrupt], [SystemExit], [GeneratorExit]). *)
Inductive exn : Type :=
| Exception (cls : string) (msg : list N)
| BaseException (cls : string) (msg : list N).

Definition exn_str (e : exn) : str :=
  match e with
  | Exception _ msg => msg
  | BaseException _ msg => msg
  end.

(** [isinstance(e, Exception)] *)
Definition is_Exception (e : exn) : bool :=
  match e with
  | Exception _ _ => true
  | BaseException _ _ => false
  end.

(** What a call gives: a value, or a raised exception. *)
Inductive result (A : Type) : Type :=
| Ok (a : A)
| Raise (e : exn).
Arguments Ok {A} a.
Arguments Raise {A} e.

(** ** The collaborators *)

Abbreviation bytes := (list Byte.byte) (only parsing).

(** A page of an open document, as PyMuPDF hands it out:
    [page.get_text("text")] and [page.get_pixmap(dpi=d)], the latter
    given here by the PNG bytes [pix.save] writes, or by the exception
    the rendering raises. *)
Record Page : Type := mkPage {
  get_text : list N;
  get_pixmap : nat -> result (list Byte.byte)
}.

(** The user message of a chat completion: a text prompt, or a text
    prompt with one image.  The image travels as a base64 data URL; the
    request is recorded with the bytes that URL encodes. *)
Inductive content : Type :=
| Text (prompt : list N)
| TextAndImage (prompt : list N) (image_data : list Byte.byte).

(** The arguments of [client.chat.completions.create] (the temperature,
    0.0 in every call, is left out). *)
Record request : Type := mkRequest {
  model : list N;
  system : list N;
  user : content
}.

(** The file system and the console of the host: the file a path
    names ([locate]: two paths name the same file exactly when they
    locate the same), and the exception, if any, that
    [os.makedirs(dir, exist_ok=True)], [pix.save(path)] with given
    bytes, [open(path, "rb")] with its read, and [print(msg)] raise. *)
Record Host : Type := mkHost {
  locate : list N -> list N;
  makedirs_error : list N -> option exn;
  save_error : list N -> list Byte.byte -> option exn;
  read_error : list N -> option exn;
  print_error : list N -> option exn
}.

(** The environment of one analysis: what [fitz.open] gives for a path,
    what the model provider answers
    ([response.choices[0].message.content], or an exception) to the
    [n]-th completion request of the run, and the host. *)
Record Env : Type := mkEnv {
  fitz_open : list N -> result (list Page);
  chat_completions_create : nat -> request -> result (list N);
  host : Host
}.

(** ** The event log and the state *)

(** The calls made, each logged when it is made: [EvSave], [EvRead],
    [EvMakedirs] and [EvPrint] stand for the attempt, whether or not
    it raises. *)
Inductive Event : Type :=
| EvOpen (pdf_path : list N)
| EvClose (pdf_path : list N)
| EvMakedirs (dir : list N)
| EvPixmap (i : nat) (dpi : nat) (res : result (list Byte.byte))
| EvSave (image_path : list N) (png : list Byte.byte)
| EvRead (image_path : list N)
| EvChat (req : request) (res : result (list N))
| EvPrint (msg : list N).

(** The files of the store, each under the name [locate] gives it, the
    number of completion requests made so far, and the log. *)
Record State : Type := mkState {
  files : gmap (list N) (list Byte.byte);
  calls : nat;
  trace : list Event
}.

(** A state with nothing requested and nothing logged yet. *)
Definition init (fs : gmap (list N) (list Byte.byte)) : State :=
  mkState fs 0 [].

(** ** The monad: state and exceptions *)

Definition M (A : Type) : Type := State -> result A * State.

#[global] Instance M_ret : MRet M := fun A a s => (Ok a, s).

#[global] Instance M_bind : MBind M := fun A B k m s =>
  match m s with
  | (Ok a, s') => k a s'
  | (Raise e, s') => (Raise e, s')
  end.

Definition lift {A : Type} (r : result A) : M A := fun s => (r, s).

(** The state after [ev] has been logged. *)
Definition emit (ev : Event) (s : State) : State :=
  mkState (files s) (calls s) (trace s ++ [ev]).

Definition log (ev : Event) : M unit := fun s => (Ok tt, emit ev s).

(** A call that changes nothing but may raise: logged, then raising
    [e] when the host says so. *)
Definition attempt (ev : Event) (error : option exn) : M unit :=
  fun s =>
    (match error with Some e => Raise e | None => Ok tt end, emit ev s).

(** [try: m  except Exception as e: h e]: an exception that is not an
    instance of [Exception] passes through. *)
Definition try_except {A : Type} (m : M A) (h : exn -> M A) : M A :=
  fun s =>
    match m s with
    | (Ok a, s') => (Ok a, s')
    | (Raise e, s') => if is_Exception e then h e s' else (Raise e, s')
    end.

(** The release of a [with] block: [ev] is logged on every exit of
    [m], normal or exceptional, and the outcome of [m] stands. *)
Definition on_exit {A : Type} (m : M A) (ev : Event) : M A :=
  fun s => let (r, s') := m s in (r, emit ev s').

(** [with fitz.open(pdf_path) as doc: body]: an exception of the open
    leaves nothing to release; once open, the document is closed on
    every exit of the body. *)
Definition with_fitz_open {A : Type} (env : Env) (pdf_path : str)
    (body : list Page -> M A) : M A :=
  _ ← log (EvOpen pdf_path);
  doc ← lift (fitz_open env pdf_path);
  on_exit (body doc) (EvClose pdf_path).

(** [os.makedirs(dir, exist_ok=True)] *)
Definition makedirs (env : Env) (dir : str) : M unit :=
  attempt (EvMakedirs dir) (makedirs_error (host env) dir).

(** [page.get_pixmap(dpi=dpi)] on the page of index [i] *)
Definition page_get_pixmap (i : nat) (page : Page) (dpi : nat) : M bytes :=
  fun s =>
    let res := get_pixmap page dpi in (res, emit (EvPixmap i dpi res) s).

(** [pix.save(image_path)]: the bytes replace what the file the path
    names held. *)
Definition pix_save (env : Env) (pix : bytes) (image_path : str) : M unit :=
  fun s =>
    match save_error (host env) image_path pix with
    | Some e => (Raise e, emit (EvSave image_path pix) s)
    | None =>
        (Ok tt,
         emit (EvSave image_path pix)
           (mkState (<[locate (host env) image_path := pix]> (files s))
              (calls s) (trace s)))
    end.

(** [with open(image_path, "rb") as f: f.read()] *)
Definition read_file (env : Env) (image_path : str) : M bytes :=
  fun s =>
    (match read_error (host env) image_path with
     | Some e => Raise e
     | None =>
         match files s !! locate (host env) image_path with
         | Some data => Ok data
         | None => Raise (Exception "FileNotFoundError" image_path)
         end
     end,
     emit (EvRead image_path) s).

(** [client.chat.completions.create(...)], then
    [response.choices[0].message.content]: the answer of the provider to
    this request, the next of the run, or the exception raised on the
    way to it. *)
Definition create (env : Env) (req : request) : M str :=
  fun s =>
    let res := chat_completions_create env (calls s) req in
    (res, emit (EvChat req res) (mkState (files s) (S (calls s)) (trace s))).

(** [print(msg)] *)
Definition print (env : Env) (msg : str) : M unit :=
  attempt (EvPrint msg) (print_error (host env) msg).

(** ** The pipeline *)

Definition SYSTEM : str :=
  lit "You are an expert VPAT and accessibility evaluator.".

Definition GPT_4O : str := lit "gpt-4o".

(** The loop of [extract_vpat_text]: [text += page.get_text("text") + "\n"]. *)
Fixpoint extract_pages (doc : list Page) (text : str) : M str :=
  match doc with
  | [] => mret text
  | page :: doc' => extract_pages doc' (text ++ get_text page ++ [LF])
  end.

Definition extract_vpat_text (env : Env) (pdf_path : str) : M str :=
  with_fitz_open env pdf_path (fun doc => extract_pages doc []).

(** The prompt [analyse_text_with_chat] builds around the text. *)
Definition text_prompt (text : str) : str :=
  lit "You're a VPAT accessibility parser. Read the following text and, for each "
  ++ lit "WCAG 2.x or Section 508 success criterion, output a single line in this exact format:"
  ++ [LF]
  ++ lit "<criterion> <description> - <support level> - <remarks>" ++ [LF; LF]
  ++ lit "Only include success criteria. Do not include headings or explanatory text. "
  ++ lit "The support level must be one of: Supports, Partially Supports, Does Not Support, or Not Applicable. "
  ++ lit "The remarks should be a brief summary of the evaluator's comments." ++ [LF; LF]
  ++ text.

Definition text_request (text : str) : request :=
  mkRequest GPT_4O SYSTEM (Text (text_prompt text)).

Definition analyse_text_with_chat (env : Env) (text : str) : M str :=
  content ← create env (text_request text);
  mret (strip content).

Definition image_prompt : str :=
  lit "You're a VPAT accessibility parser. For each WCAG 2.x or Section 508 "
  ++ lit "success criterion found on this page, output a single line in the "
  ++ lit "format: <criterion> <description> - <support level> - <remarks>. "
  ++ lit "Only include success criteria; skip other text.".

Definition image_request (image_data : bytes) : request :=
  mkRequest GPT_4O SYSTEM (TextAndImage image_prompt image_data).

Definition analyse_page_image (env : Env) (image_path : str) : M str :=
  image_data ← read_file env image_path;
  content ← create env (image_request image_data);
  mret (strip content).

(** [[line.strip() for line in result.split("\n") if line.strip()]] *)
Definition stripped_lines (result : str) : list str :=
  map strip (filter (fun line => truthy (strip line) = true) (split LF result)).

(** [f"images/page_{i+1}.png"] *)
Definition page_image_path (i : nat) : str :=
  lit "images/page_" ++ decimal (i + 1) ++ lit ".png".

(** The loop of [analyse_scanned_pdf] over [enumerate(doc)], from index
    [i] on, with the lines collected so far. *)
Fixpoint scan_pages (env : Env) (i : nat) (doc : list Page)
    (lines : list (list N)) : M (list (list N)) :=
  match doc with
  | [] => mret lines
  | page :: doc' =>
      pix ← page_get_pixmap i page 200;
      let image_path := page_image_path i in
      _ ← pix_save env pix image_path;
      result ← analyse_page_image env image_path;
      let lines' :=
        if truthy result then lines ++ stripped_lines result else lines in
      scan_pages env (S i) doc' lines'
  end.

Definition analyse_scanned_pdf (env : Env) (pdf_path : str) : M str :=
  lines ← with_fitz_open env pdf_path (fun doc =>
             _ ← makedirs env (lit "images");
             scan_pages env 0 doc []);
  mret (join [LF] lines).

(** The message of the [except] branch of [analyze_pdf]. *)
Definition fallback_message (e : exn) : str :=
  lit "Chat analysis failed: " ++ exn_str e
  ++ lit ". Falling back to vision.".

(** [analyze_pdf]: the [try] either returns the text analysis ([Some])
    or, after the handler has printed, falls through ([None]) to the
    vision analysis, as does a text too short; an exception the
    handler does not catch, or one of its own print, ends the call. *)
Definition analyze_pdf (env : Env) (pdf_path : str) : M str :=
  text ← extract_vpat_text env pdf_path;
  returned ←
    (if truthy text && (50 <? length (strip text))
     then try_except
            (summary ← analyse_text_with_chat env text; mret (Some summary))
            (fun e => _ ← print env (fallback_message e); mret None)
     else mret None);
  match returned with
  | Some summary => mret summary
  | None => analyse_scanned_pdf env pdf_path
  end.

(** ** Logs, lines and summaries *)

(** A whitespace character. *)
Definition space (c : N) : Prop := isspace c = true.

(** The lines of a returned string: none for the empty string, else
    its pieces between line feeds. *)
Definition lines_of (r : list N) : list (list N) :=
  match r with
  | [] => []
  | _ => split LF r
  end.

(** The state after the events [evs] have been logged. *)
Definition emits (evs : list Event) (s : State) : State :=
  mkState (files s) (calls s) (trace s ++ evs).

(** The events a computation logs when run from [s]. *)
Definition events {A : Type} (m : M A) (s : State) : list Event :=
  drop (length (trace s)) (trace (m s).2).

(** The text of a document: every page's text, each followed by a line feed. *)
Definition document_text (doc : list Page) : list N :=
  concat (map (fun page => get_text page ++ [LF]) doc).

(** What one page of the vision loop logs when it is rendered to [png]
    and the model provider answers [res]. *)
Definition page_events (i : nat) (png : list Byte.byte) (res : result (list N))
    : list Event :=
  [EvPixmap i 200 (Ok png); EvSave (page_image_path i) png;
   EvRead (page_image_path i); EvChat (image_request png) res].

(** The state after that page. *)
Definition after_page (env : Env) (i : nat) (png : list Byte.byte)
    (res : result (list N)) (s : State) : State :=
  mkState (<[locate (host env) (page_image_path i) := png]> (files s))
          (S (calls s)) (trace s ++ page_events i png res).

(** The log of a vision loop in which every page, from index [i] on,
    is rendered and answered: one rendering, one staged file and one
    completion request per page, page after page. *)
Fixpoint scan_events (i : nat) (ios : list (list Byte.byte * list N))
    : list Event :=
  match ios with
  | [] => []
  | (png, content) :: ios' =>
      page_events i png (Ok content) ++ scan_events (S i) ios'
  end.

(** The lines a page contributes, from the provider's answer for it. *)
Definition page_lines (content : list N) : list (list N) :=
  stripped_lines (strip content).

(** A request to the text analyzer, and one to the image analyzer. *)
Definition is_text_call (ev : Event) : bool :=
  match ev with
  | EvChat (mkRequest _ _ (Text _)) _ => true
  | _ => false
  end.

Definition is_image_call (ev : Event) : bool :=
  match ev with
  | EvChat (mkRequest _ _ (TextAndImage _ _)) _ => true
  | _ => false
  end.

Definition is_chat (ev : Event) : bool :=
  match ev with
  | EvChat _ _ => true
  | _ => false
  end.

Definition is_pixmap (ev : Event) : bool :=
  match ev with
  | EvPixmap _ _ _ => true
  | _ => false
  end.

(** The log of a vision analysis that returns. *)
Definition vision_events (pdf_path : list N)
    (ios : list (list Byte.byte * list N)) : list Event :=
  [EvOpen pdf_path; EvMakedirs (lit "images")]
  ++ scan_events 0 ios ++ [EvClose pdf_path].

(** The summary of a vision analysis: the lines of every page, page
    after page, joined by line feeds. *)
Definition vision_summary (ios : list (list Byte.byte * list N)) : list N :=
  join [LF] (concat (map (fun io => page_lines io.2) ios)).

(** The number of requests to the text analyzer in a log. *)
Definition text_calls (evs : list Event) : nat :=
  length (List.filter is_text_call evs).

(** The completion requests of a log, in order. *)
Definition chat_calls (evs : list Event) : list Event :=
  List.filter is_chat evs.

(** The renderings of a log, in order. *)
Definition renderings (evs : list Event) : list Event :=
  List.filter is_pixmap evs.

(** ** Lines, said without the operations that make them *)

#[global] Instance space_dec (c : N) : Decision (space c).
Proof. unfold space. apply _. Defined.

(** [l] is [piece] without the whitespace at its two ends: what was
    removed is whitespace, and [l] neither starts nor ends with a
    whitespace character. *)
Definition trimmed_of (piece l : list N) : Prop :=
  (exists ws1 ws2,
     Forall space ws1 /\ Forall space ws2 /\ piece = ws1 ++ l ++ ws2)
  /\ (forall c, head l = Some c -> isspace c = false)
  /\ (forall c, last l = Some c -> isspace c = false).

(** [ls] are the lines of [answer]: cut [answer] at its line feeds,
    drop the pieces that hold nothing but whitespace, and take each
    remaining piece without the whitespace at its ends, in order. *)
Definition lines_from (answer : list N) (ls : list (list N)) : Prop :=
  exists pieces,
    pieces ≠ [] /\ join [LF] pieces = answer
    /\ Forall (fun piece => LF ∉ piece) pieces
    /\ Forall2 trimmed_of
         (filter (fun piece => ¬ Forall space piece) pieces) ls.

(** The page of index [j] passes: it renders to the first component,
    the image is written and read back, and the [c]-th request, with
    that image, is answered by the second component. *)
Definition page_passes (env : Env) (j c : nat) (page : Page)
    (io : list Byte.byte * list N) : Prop :=
  get_pixmap page 200 = Ok io.1
  /\ save_error (host env) (page_image_path j) io.1 = None
  /\ read_error (host env) (page_image_path j) = None
  /\ chat_completions_create env c (image_request io.1) = Ok io.2.

(** The host lets a vision analysis through: the scratch directory can
    be made, and every scratch file written and read. *)
Definition host_allows_staging (h : Host) : Prop :=
  makedirs_error h (lit "images") = None
  /\ (forall k png, save_error h (page_image_path k) png = None)
  /\ (forall k, read_error h (page_image_path k) = None).

(** ** Sample environments *)

Module Samples.

(** A host on which every path names a file of its own and nothing
    raises. *)
Definition plain_host : Host :=
  mkHost (fun path => path) (fun _ => None) (fun _ _ => None) (fun _ => None)
    (fun _ => None).

Definition pdf : list N := lit "vpat.pdf".

Definition png1 : list Byte.byte := [Byte.x89; Byte.x50; Byte.x01].
Definition png2 : list Byte.byte := [Byte.x89; Byte.x50; Byte.x02].

(** A page with 60 characters of selectable text. *)
Definition text_page : Page := mkPage (replicate 60 97%N) (fun _ => Ok png1).

(** Two scanned pages: no selectable text. *)
Definition scan1 : Page := mkPage [] (fun _ => Ok png1).
Definition scan2 : Page := mkPage [] (fun _ => Ok png2).

Definition quota : exn := Exception "RateLimitError" (lit "quota").

(** A text-bearing document; the provider answers every request with
    two criteria separated by an empty line. *)
Definition env_text : Env :=
  mkEnv (fun _ => Ok [text_page])
        (fun _ _ => Ok (lit "1.1.1 A - Supports - x" ++ [LF; LF]
                        ++ lit "1.4.3 B - Supports - y"))
        plain_host.

(** The same document; the first request raises, the later ones are
    answered. *)
Definition env_text_fails : Env :=
  mkEnv (fun _ => Ok [text_page; text_page])
        (fun n _ => match n with
                    | 0 => Raise quota
                    | _ => Ok ([32; LF]%N ++ lit " 1.1.1 A - Supports - x "
                               ++ [LF; 32; LF]%N)
                    end)
        plain_host.

(** A scanned document of two pages, every request answered. *)
Definition env_scan : Env :=
  mkEnv (fun _ => Ok [scan1; scan2])
        (fun n _ => match n with
                    | 0 => Ok (lit " 1.1.1 A - Supports - x" ++ [LF; LF]
                               ++ lit "1.2.1 B - Supports - y ")
                    | _ => Ok [32; LF; 9]%N
                    end)
        plain_host.

(** A scanned document whose second page the provider fails on. *)
Definition env_scan_fails : Env :=
  mkEnv (fun _ => Ok [scan1; scan2])
        (fun n _ => match n with
                    | 0 => Ok (lit "1.1.1 A - Supports - x")
                    | _ => Raise quota
                    end)
        plain_host.

(** A path that is not a readable PDF. *)
Definition env_unreadable : Env :=
  mkEnv (fun _ => Raise (Exception "FileDataError" (lit "cannot open")))
        (fun _ _ => Ok []) plain_host.

(** A document with no page. *)
Definition env_no_page : Env :=
  mkEnv (fun _ => Ok []) (fun _ _ => Ok (lit "1.1.1 A - Supports - x"))
    plain_host.

(** A document of one page holding [abc]. *)
Definition env_abc : Env :=
  mkEnv (fun _ => Ok [mkPage (lit "abc") (fun _ => Ok png1)])
        (fun _ _ => Ok []) plain_host.

End Samples.

(** ** The scratch store and the ways a vision analysis ends *)

(** The store after the pages of index [i] on have been staged, each
    image written over whatever the file its path names held. *)
Fixpoint staged (h : Host) (i : nat) (ios : list (list Byte.byte * list N))
    (fs : gmap (list N) (list Byte.byte)) : gmap (list N) (list Byte.byte) :=
  match ios with
  | [] => fs
  | (png, _) :: ios' =>
      staged h (S i) ios' (<[locate h (page_image_path i) := png]> fs)
  end.

(** How a vision loop ends: after its last page, or on a page whose
    rendering, whose save, whose read or whose request raises. *)
Inductive stop : Type :=
| Completed
| RenderFailed (e : exn)
| SaveFailed (png : list Byte.byte) (e : exn)
| ReadFailed (png : list Byte.byte) (e : exn)
| RequestFailed (png : list Byte.byte) (e : exn).

(** What the page the loop stops on logs, at index [i]. *)
Definition stop_events (i : nat) (st : stop) : list Event :=
  match st with
  | Completed => []
  | RenderFailed e => [EvPixmap i 200 (Raise e)]
  | SaveFailed png e =>
      [EvPixmap i 200 (Ok png); EvSave (page_image_path i) png]
  | ReadFailed png e =>
      [EvPixmap i 200 (Ok png); EvSave (page_image_path i) png;
       EvRead (page_image_path i)]
  | RequestFailed png e => page_events i png (Raise e)
  end.

(** What the page the loop stops on leaves in the store, and how many
    requests it spends. *)
Definition stop_files (h : Host) (i : nat) (st : stop)
    (fs : gmap (list N) (list Byte.byte)) : gmap (list N) (list Byte.byte) :=
  match st with
  | ReadFailed png _ => <[locate h (page_image_path i) := png]> fs
  | RequestFailed png _ => <[locate h (page_image_path i) := png]> fs
  | _ => fs
  end.

Definition stop_calls (st : stop) : nat :=
  match st with
  | RequestFailed _ _ => 1
  | _ => 0
  end.

(** The exception a stop raises, if it is one. *)
Definition stop_error (st : stop) : option exn :=
  match st with
  | Completed => None
  | RenderFailed e => Some e
  | SaveFailed _ e => Some e
  | ReadFailed _ e => Some e
  | RequestFailed _ e => Some e
  end.

(** The outcome of a loop that stops this way, from the lines collected. *)
Definition stop_result (st : stop) (lines : list (list N))
    : result (list (list N)) :=
  match stop_error st with
  | None => Ok lines
  | Some e => Raise e
  end.

(** The loop over [doc] stops this way at position [n], on the page of
    index [j], the next request being the [c]-th: at the end of the
    document, or on that page at the first of its calls that raises. *)
Definition stops_at (env : Env) (doc : list Page) (n j c : nat) (st : stop)
    : Prop :=
  match st with
  | Completed => n = length doc
  | RenderFailed e =>
      exists page, doc !! n = Some page /\ get_pixmap page 200 = Raise e
  | SaveFailed png e =>
      exists page,
        doc !! n = Some page /\ get_pixmap page 200 = Ok png
        /\ save_error (host env) (page_image_path j) png = Some e
  | ReadFailed png e =>
      exists page,
        doc !! n = Some page /\ get_pixmap page 200 = Ok png
        /\ save_error (host env) (page_image_path j) png = None
        /\ read_error (host env) (page_image_path j) = Some e
  | RequestFailed png e =>
      exists page,
        doc !! n = Some page /\ get_pixmap page 200 = Ok png
        /\ save_error (host env) (page_image_path j) png = None
        /\ read_error (host env) (page_image_path j) = None
        /\ chat_completions_create env c (image_request png) = Raise e
  end.

(** The outcome of a vision analysis whose loop stops this way. *)
Definition stop_summary (st : stop) (ios : list (list Byte.byte * list N))
    : result (list N) :=
  match stop_error st with
  | None => Ok (vision_summary ios)
  | Some e => Raise e
  end.

Definition is_open (ev : Event) : bool :=
  match ev with
  | EvOpen _ => true
  | _ => false
  end.

Definition is_close (ev : Event) : bool :=
  match ev with
  | EvClose _ => true
  | _ => false
  end.

(** The documents opened, and closed, in a log. *)
Definition opens (evs : list Event) : nat := length (List.filter is_open evs).
Definition closes (evs : list Event) : nat := length (List.filter is_close evs).

(** ** The upload endpoint of [app.py] *)

(** [locate], under a name the module below does not hide. *)
Definition host_locate (h : Host) (path : list N) : list N := locate h path.

Module App.

Definition UPLOAD_FOLDER : list N := lit "uploads".

Definition SLASH : N := 47%N.

(** [os.path.join(a, b)] on a POSIX system. *)
Definition os_path_join (a b : list N) : list N :=
  if bool_decide (head b = Some SLASH) then b
  else if negb (truthy a) || bool_decide (last a = Some SLASH) then a ++ b
  else a ++ [SLASH] ++ b.

(** An uploaded file: the name the client gave it, and its bytes. *)
Record FileStorage : Type := mkFileStorage {
  filename : list N;
  stream : list Byte.byte
}.

(** [request.files[key]]: the first file uploaded under the field
    [key]; [None] when [key not in request.files]. *)
Fixpoint files_get (key : list N) (request_files : list (list N * FileStorage))
    : option FileStorage :=
  match request_files with
  | [] => None
  | (k, file) :: rest =>
      if bool_decide (k = key) then Some file else files_get key rest
  end.

(** What the view returns: [jsonify({'error': msg}), status], or a body
    with a status and a content type. *)
Inductive Response : Type :=
| JsonError (error : list N) (status : nat)
| Body (body : list N) (status : nat) (content_type : list N).

(** The collaborators of the server: what [fitz.open] makes of a file
    with given bytes, the exception [file.save] raises at a path, if
    any, the answers of the model provider, and the host. *)
Record Server : Type := mkServer {
  pdf_open : list Byte.byte -> result (list Page);
  save_error : list N -> option exn;
  completions : nat -> request -> result (list N);
  server_host : Host
}.

(** The file a path names on the host of the server. *)
Definition locate (srv : Server) (path : list N) : list N :=
  host_locate (server_host srv) path.

(** The environment of an analysis served from the store [fs]:
    [fitz.open] reads the file the path names. *)
Definition env_of (srv : Server) (fs : gmap (list N) (list Byte.byte)) : Env :=
  mkEnv (fun path =>
           match fs !! locate srv path with
           | Some data => pdf_open srv data
           | None => Raise (Exception "FileNotFoundError" path)
           end)
        (completions srv)
        (server_host srv).

(** [file.save(filepath)]: the bytes replace what the file the path
    names held; a save that raises is taken to leave the store as it
    was. *)
Definition file_save (srv : Server) (file : FileStorage) (filepath : list N)
    : M unit :=
  fun s =>
    match save_error srv filepath with
    | Some e => (Raise e, emit (EvSave filepath (stream file)) s)
    | None =>
        (Ok tt, emit (EvSave filepath (stream file))
                  (mkState (<[locate srv filepath := stream file]> (files s))
                     (calls s) (trace s)))
    end.

(** The analysis of the file just saved, served from the store as the
    save left it. *)
Definition analyze_saved (srv : Server) (filepath : list N) : M (list N) :=
  fun s => analyze_pdf (env_of srv (files s)) filepath s.

(** The view [analyze] of the route [/analyze], on [request.files].
    [analyze_pdf] returns a string, so the conversion of a result that
    is not one never runs. *)
Definition analyze (srv : Server)
    (request_files : list (list N * FileStorage)) : M Response :=
  match files_get (lit "file") request_files with
  | None => mret (JsonError (lit "No file uploaded") 400)
  | Some file =>
      if negb (truthy (filename file))
      then mret (JsonError (lit "Empty filename") 400)
      else
        let filepath := os_path_join UPLOAD_FOLDER (filename file) in
        _ ← file_save srv file filepath;
        result ← analyze_saved srv filepath;
        mret (Body result 200 (lit "text/plain; charset=utf-8"))
  end.

End App.

(** ** More sample environments *)

Module MoreSamples.

Definition render_error : exn := Exception "RuntimeError" (lit "cannot render").

(** A scanned document whose second page does not render. *)
Definition unrenderable : list Page :=
  [Samples.scan1; mkPage [] (fun _ => Raise render_error); Samples.scan2].

Definition env_render_fails : Env :=
  mkEnv (fun _ => Ok unrenderable)
        (fun _ _ => Ok (lit "1.1.1 A - Supports - x"))
        Samples.plain_host.

(** A document whose only page holds 80 spaces. *)
Definition env_blank_text : Env :=
  mkEnv (fun _ => Ok [mkPage (replicate 80 32%N) (fun _ => Ok Samples.png1)])
        (fun _ _ => Ok (lit "1.1.1 A - Supports - x"))
        Samples.plain_host.

(** A host on which [images] is a regular file: the scratch directory
    cannot be made. *)
Definition file_exists : exn :=
  Exception "FileExistsError" (lit "[Errno 17] File exists: 'images'").

Definition blocked_host : Host :=
  mkHost (fun path => path) (fun _ => Some file_exists) (fun _ _ => None)
    (fun _ => None) (fun _ => None).

(** A document with no page, on that host. *)
Definition env_no_page_blocked : Env :=
  mkEnv (fun _ => Ok []) (fun _ _ => Ok (lit "1.1.1 A - Supports - x"))
    blocked_host.

(** A text-bearing document; the request is interrupted from the
    keyboard. *)
Definition interrupt : exn := BaseException "KeyboardInterrupt" [].

Definition env_interrupted : Env :=
  mkEnv (fun _ => Ok [Samples.text_page]) (fun _ _ => Raise interrupt)
    Samples.plain_host.

(** A host whose console is closed: printing raises. *)
Definition closed_console : exn :=
  Exception "ValueError" (lit "I/O operation on closed file.").

Definition mute_host : Host :=
  mkHost (fun path => path) (fun _ => None) (fun _ _ => None) (fun _ => None)
    (fun _ => Some closed_console).

(** A text-bearing document whose request raises, on that host. *)
Definition env_mute : Env :=
  mkEnv (fun _ => Ok [Samples.text_page]) (fun _ _ => Raise Samples.quota)
    mute_host.

(** A host that resolves [..]: the path of the upload named
    [../images/page_1.png] names the scratch file of the first page. *)
Definition resolving_host : Host :=
  mkHost (fun path =>
            if bool_decide (path = lit "uploads/../images/page_1.png")
            then lit "images/page_1.png" else path)
    (fun _ => None) (fun _ _ => None) (fun _ => None) (fun _ => None).

(** A server on which every file reads as one scanned page, every save
    succeeds and every request is answered. *)
Definition server : App.Server :=
  App.mkServer (fun _ => Ok [Samples.scan1]) (fun _ => None)
    (fun _ _ => Ok (lit "1.1.1 A - Supports - x")) Samples.plain_host.

(** The same server on the host that resolves [..]. *)
Definition resolving_server : App.Server :=
  App.mkServer (fun _ => Ok [Samples.scan1]) (fun _ => None)
    (fun _ _ => Ok (lit "1.1.1 A - Supports - x")) resolving_host.

Definition upload : App.FileStorage :=
  App.mkFileStorage (lit "report.pdf") [Byte.x25; Byte.x50; Byte.x44; Byte.x46].

Definition absolute_upload : App.FileStorage :=
  App.mkFileStorage (lit "/etc/cron.d/job") [Byte.x2a].

Definition traversing_upload : App.FileStorage :=
  App.mkFileStorage (lit "../images/page_1.png") [Byte.x25; Byte.x50].

End MoreSamples.

(** ** Checks of the string operations *)

Example strip_ex : strip (lit "  a b ") = lit "a b".
Proof. reflexivity. Qed.
Example split_ex : split LF [97; 10; 10; 98]%N = [[97]; []; [98]]%N.
Proof. reflexivity. Qed.
Example join_ex : join [LF] [[97]; []; [98]]%N = [97; 10; 10; 98]%N.
Proof. reflexivity. Qed.
Example decimal_ex : decimal 12 = lit "12".
Proof. vm_compute. reflexivity. Qed.

(** ** Facts about the string operations *)

Section StringFacts.

Implicit Types (c sep : N) (s l : list N) (ls : list (list N)).

Lemma isspace_LF : isspace LF = true.
Proof. reflexivity. Qed.

Lemma lstrip_spaces ws s : Forall space ws -> lstrip (ws ++ s) = lstrip s.
Proof.
  induction 1 as [|c ws Hc _ IH]; simpl; [done|].
  by rewrite Hc.
Qed.

Lemma lstrip_decomp s : exists ws, Forall space ws /\ s = ws ++ lstrip s.
Proof.
  induction s as [|c s [ws [Hws Hs]]]; simpl.
  - by exists [].
  - destruct (isspace c) eqn:Hc.
    + exists (c :: ws). split; [by constructor|]. simpl. by f_equal.
    + by exists [].
Qed.

Lemma lstrip_head s c : head (lstrip s) = Some c -> isspace c = false.
Proof.
  induction s as [|d s IH]; simpl; [done|].
  destruct (isspace d) eqn:Hd; [done|].
  simpl. by intros [= <-].
Qed.

Lemma lstrip_fixed s :
  (forall c, head s = Some c -> isspace c = false) -> lstrip s = s.
Proof.
  destruct s as [|c s]; simpl; [done|].
  intros H. by rewrite (H c eq_refl).
Qed.

Lemma rstrip_decomp s : exists ws, Forall space ws /\ s = rstrip s ++ ws.
Proof.
  destruct (lstrip_decomp (reverse s)) as [ws [Hws Hs]].
  exists (reverse ws). split; [by apply Forall_reverse|].
  unfold rstrip. rewrite <- reverse_app, <- Hs. by rewrite reverse_involutive.
Qed.

Lemma rstrip_last s c : last (rstrip s) = Some c -> isspace c = false.
Proof. unfold rstrip. rewrite last_reverse. apply lstrip_head. Qed.

Lemma rstrip_fixed s :
  (forall c, last s = Some c -> isspace c = false) -> rstrip s = s.
Proof.
  intros H. unfold rstrip. rewrite lstrip_fixed.
  - apply reverse_involutive.
  - intros c. rewrite head_reverse. apply H.
Qed.

Lemma rstrip_head s c :
  head (rstrip s) = Some c -> head s = Some c.
Proof.
  destruct (rstrip_decomp s) as [ws [_ Hs]]. intros Hc.
  rewrite Hs. destruct (rstrip s); [done|]. done.
Qed.

(** [strip] removes a run of spaces at either end and nothing else. *)
Lemma strip_decomp s :
  exists ws1 ws2,
    Forall space ws1 /\ Forall space ws2 /\ s = ws1 ++ strip s ++ ws2.
Proof.
  destruct (lstrip_decomp s) as [ws1 [H1 Hs1]].
  destruct (rstrip_decomp (lstrip s)) as [ws2 [H2 Hs2]].
  exists ws1, ws2. repeat split; [done..|].
  unfold strip. by rewrite <- Hs2.
Qed.

Lemma strip_head s c : head (strip s) = Some c -> isspace c = false.
Proof. intros H. apply rstrip_head in H. by apply lstrip_head in H. Qed.

Lemma strip_last s c : last (strip s) = Some c -> isspace c = false.
Proof. apply rstrip_last. Qed.

Lemma strip_fixed s :
  (forall c, head s = Some c -> isspace c = false) ->
  (forall c, last s = Some c -> isspace c = false) ->
  strip s = s.
Proof.
  intros Hh Hl. unfold strip. rewrite (lstrip_fixed s Hh). by apply rstrip_fixed.
Qed.

Lemma strip_idemp s : strip (strip s) = strip s.
Proof. apply strip_fixed; [apply strip_head | apply strip_last]. Qed.

Lemma strip_nil : strip [] = [].
Proof. reflexivity. Qed.

Lemma strip_not_elem c s : c ∉ s -> c ∉ strip s.
Proof.
  destruct (strip_decomp s) as (ws1 & ws2 & _ & _ & Hs).
  intros Hc Hin. apply Hc. rewrite Hs. set_solver.
Qed.

(** A stripped string neither starts nor ends with a line feed. *)
Lemma strip_no_LF_ends s :
  head (strip s) ≠ Some LF /\ last (strip s) ≠ Some LF.
Proof.
  split; intros H.
  - apply strip_head in H. by rewrite isspace_LF in H.
  - apply strip_last in H. by rewrite isspace_LF in H.
Qed.

Lemma truthy_true s : truthy s = true <-> s ≠ [].
Proof. by destruct s. Qed.

Lemma truthy_false s : truthy s = false <-> s = [].
Proof. by destruct s. Qed.

Lemma split_not_nil sep s : split sep s ≠ [].
Proof.
  destruct s as [|c s]; simpl; [done|].
  destruct (c =? sep)%N; [done|]. by destruct (split sep s).
Qed.

Lemma split_no_sep sep l : sep ∉ l -> split sep l = [l].
Proof.
  induction l as [|c l IH]; simpl; [done|].
  intros H. apply not_elem_of_cons in H as [Hc Hl].
  destruct (N.eqb_spec c sep) as [->|_]; [done|].
  by rewrite IH.
Qed.

Lemma split_app_sep sep l s :
  sep ∉ l -> split sep (l ++ sep :: s) = l :: split sep s.
Proof.
  induction l as [|c l IH]; simpl.
  - by rewrite N.eqb_refl.
  - intros H. apply not_elem_of_cons in H as [Hc Hl].
    destruct (N.eqb_spec c sep) as [->|_]; [done|].
    by rewrite IH.
Qed.

(** Splitting undoes joining, for pieces free of the separator. *)
Lemma split_join sep ls :
  ls ≠ [] -> Forall (fun l => sep ∉ l) ls -> split sep (join [sep] ls) = ls.
Proof.
  intros Hne H. induction H as [|l ls Hl Hls IH]; [done|].
  destruct ls as [|l' ls']; simpl.
  - by apply split_no_sep.
  - rewrite split_app_sep by done. f_equal. by apply IH.
Qed.

(** No piece of a split holds the separator. *)
Lemma split_pieces sep s : Forall (fun l => sep ∉ l) (split sep s).
Proof.
  induction s as [|c s IH]; simpl.
  - repeat constructor. apply not_elem_of_nil.
  - destruct (N.eqb_spec c sep) as [->|Hc].
    + constructor; [apply not_elem_of_nil | done].
    + destruct (split sep s) as [|l ls].
      * repeat constructor.
        apply not_elem_of_cons. split; [done | apply not_elem_of_nil].
      * apply Forall_cons in IH as [Hl Hls].
        constructor; [|done]. apply not_elem_of_cons. by split.
Qed.

(** Joining undoes splitting. *)
Lemma join_split sep s : join [sep] (split sep s) = s.
Proof.
  induction s as [|c s IH]; simpl; [done|].
  destruct (N.eqb_spec c sep) as [->|Hc].
  - pose proof (split_not_nil sep s) as Hne.
    simpl. destruct (split sep s) as [|l ls]; [done|].
    simpl in *. by rewrite IH.
  - pose proof (split_not_nil sep s) as Hne.
    destruct (split sep s) as [|l ls]; [done|].
    destruct ls; simpl in *; by rewrite <- IH.
Qed.

Lemma join_nil_inv (sp : list N) ls :
  Forall (fun l => l ≠ []) ls -> join sp ls = [] -> ls = [].
Proof.
  destruct 1 as [|l ls Hl _]; [done|].
  destruct l; [done|]. simpl. by destruct ls.
Qed.

Lemma lines_of_join ls :
  Forall (fun l => l ≠ [] /\ LF ∉ l) ls -> lines_of (join [LF] ls) = ls.
Proof.
  intros H. apply Forall_and in H as [Hne Hlf].
  destruct ls as [|l ls']; [done|].
  rewrite <- (split_join LF (l :: ls')) at 2 by done.
  destruct (join [LF] (l :: ls')) eqn:E; [|done].
  by apply join_nil_inv in E.
Qed.

Lemma join_head (sp : list N) ls :
  Forall (fun l => l ≠ []) ls -> head (join sp ls) = head ls ≫= head.
Proof.
  destruct 1 as [|l ls Hl _]; [done|].
  destruct l; [done|]. by destruct ls.
Qed.

Lemma join_last (sp : list N) ls :
  Forall (fun l => l ≠ []) ls -> last (join sp ls) = last ls ≫= last.
Proof.
  induction 1 as [|l ls Hl Hls IH]; [done|].
  destruct ls as [|l' ls'].
  - simpl. by destruct (last l).
  - change (join sp (l :: l' :: ls')) with (l ++ sp ++ join sp (l' :: ls')).
    apply Forall_cons in Hls as [Hl' _].
    assert (join sp (l' :: ls') ≠ []) as Hj.
    { destruct l'; [done|]. simpl. by destruct ls'. }
    rewrite !last_app. change (last (l :: l' :: ls')) with (last (l' :: ls')).
    rewrite <- IH. destruct (last (join sp (l' :: ls'))) eqn:E; [done|].
    by apply last_None in E.
Qed.

(** Every collected line is non-empty, stripped, and free of line feeds. *)
Lemma stripped_lines_Forall result :
  Forall (fun l => l ≠ [] /\ strip l = l /\ LF ∉ l) (stripped_lines result).
Proof.
  unfold stripped_lines. apply Forall_map, Forall_forall. intros l Hl.
  apply list_elem_of_filter in Hl as [Hl Hin]. simpl.
  repeat split.
  - by apply truthy_true.
  - apply strip_idemp.
  - apply strip_not_elem.
    by apply (proj1 (Forall_forall _ _) (split_pieces LF result)).
Qed.

Lemma stripped_lines_nil : stripped_lines [] = [].
Proof. reflexivity. Qed.

(** Formatting a join of non-blank lines strips each and drops none. *)
Lemma stripped_lines_join ls :
  Forall (fun l => (LF ∉ l) /\ strip l ≠ []) ls ->
  stripped_lines (join [LF] ls) = map strip ls.
Proof.
  intros H. destruct ls as [|l ls']; [done|].
  unfold stripped_lines. apply Forall_and in H as [Hlf Hnb].
  rewrite split_join by done. f_equal.
  induction Hnb as [|x xs Hx Hxs IH]; [done|].
  rewrite filter_cons_True by by apply truthy_true.
  f_equal. apply IH. by apply Forall_cons in Hlf as [_ ?].
Qed.

(** *** Stripping a whole answer before formatting changes nothing *)

Lemma lstrip_app l s :
  lstrip (l ++ s) = match lstrip l with [] => lstrip s | _ => lstrip l ++ s end.
Proof.
  induction l as [|c l IH]; simpl; [by destruct (lstrip s)|].
  by destruct (isspace c).
Qed.

Lemma rstrip_snoc_space l c : space c -> rstrip (l ++ [c]) = rstrip l.
Proof.
  intros Hc. unfold rstrip. rewrite reverse_app. simpl.
  change (reverse [c]) with [c]. simpl. by rewrite Hc.
Qed.

Lemma strip_cons_space c l : space c -> strip (c :: l) = strip l.
Proof. intros Hc. unfold strip. simpl. by rewrite Hc. Qed.

Lemma strip_snoc_space l c : space c -> strip (l ++ [c]) = strip l.
Proof.
  intros Hc. unfold strip. rewrite lstrip_app.
  destruct (lstrip l) as [|d t] eqn:E.
  - simpl. by rewrite Hc.
  - by apply rstrip_snoc_space.
Qed.

Lemma split_snoc_sep sep s : split sep (s ++ [sep]) = split sep s ++ [[]].
Proof.
  induction s as [|c s IH]; simpl.
  - by rewrite N.eqb_refl.
  - destruct (c =? sep)%N; rewrite IH; [done|].
    pose proof (split_not_nil sep s). by destruct (split sep s).
Qed.

Lemma split_snoc_ne sep s c :
  c ≠ sep ->
  exists ls l,
    split sep s = ls ++ [l] /\ split sep (s ++ [c]) = ls ++ [l ++ [c]].
Proof.
  intros Hc. induction s as [|d s (ls & l & Hs & Hsc)]; simpl.
  - exists [], []. apply N.eqb_neq in Hc. by rewrite Hc.
  - rewrite Hs, Hsc. destruct (d =? sep)%N.
    + by exists ([] :: ls), l.
    + destruct ls as [|x ls]; simpl.
      * by exists [], (d :: l).
      * by exists ((d :: x) :: ls), l.
Qed.

Lemma stripped_lines_cons_space c s :
  space c -> stripped_lines (c :: s) = stripped_lines s.
Proof.
  intros Hc. unfold stripped_lines. simpl.
  destruct (N.eqb_spec c LF) as [->|Hne].
  - by rewrite filter_cons_False by by rewrite strip_nil.
  - pose proof (split_not_nil LF s).
    destruct (split LF s) as [|l ls]; [done|].
    rewrite !filter_cons. cbn beta. rewrite (strip_cons_space c l Hc).
    destruct (decide (truthy (strip l) = true)); [|done].
    cbn [map]. by rewrite (strip_cons_space c l Hc).
Qed.

Lemma stripped_lines_snoc_space s c :
  space c -> stripped_lines (s ++ [c]) = stripped_lines s.
Proof.
  intros Hc. unfold stripped_lines.
  destruct (N.eq_dec c LF) as [->|Hne].
  - rewrite split_snoc_sep, filter_app, map_app.
    rewrite filter_cons_False by by rewrite strip_nil.
    by rewrite filter_nil, app_nil_r.
  - destruct (split_snoc_ne LF s c Hne) as (ls & l & -> & ->).
    rewrite !filter_app, !map_app. f_equal.
    rewrite !filter_cons, !filter_nil. cbn beta.
    rewrite (strip_snoc_space l c Hc).
    destruct (decide (truthy (strip l) = true)); [|done].
    cbn [map]. by rewrite (strip_snoc_space l c Hc).
Qed.

Lemma stripped_lines_spaces_l ws s :
  Forall space ws -> stripped_lines (ws ++ s) = stripped_lines s.
Proof.
  induction 1 as [|c ws Hc _ IH]; [done|].
  simpl. by rewrite stripped_lines_cons_space.
Qed.

Lemma stripped_lines_spaces_r ws : forall s,
  Forall space ws -> stripped_lines (s ++ ws) = stripped_lines s.
Proof.
  induction ws as [|c ws IH]; intros s Hws; [by rewrite app_nil_r|].
  apply Forall_cons in Hws as [Hc Hws].
  rewrite (cons_middle c s ws), app_assoc, IH by done.
  by apply stripped_lines_snoc_space.
Qed.

(** The lines collected from an answer are the same whether or not the
    answer is stripped as a whole first. *)
Lemma stripped_lines_strip s : stripped_lines (strip s) = stripped_lines s.
Proof.
  destruct (strip_decomp s) as (ws1 & ws2 & H1 & H2 & Hs).
  rewrite Hs at 2.
  by rewrite stripped_lines_spaces_l, stripped_lines_spaces_r.
Qed.

End StringFacts.

(** ** Running the pipeline *)

Arguments lit : simpl never.
Arguments decimal : simpl never.
Arguments page_image_path : simpl never.
Arguments text_request : simpl never.
Arguments image_request : simpl never.
Arguments fallback_message : simpl never.

(** Case analysis on membership in an explicit list of events. *)
Ltac elem_cases H :=
  repeat (apply elem_of_cons in H; destruct H as [H|H]);
  try (by apply elem_of_nil in H); try discriminate H.

Section Runs.

Implicit Types (env : Env) (s : State) (doc : list Page) (e : exn).

Lemma emit_emits ev s : emit ev s = emits [ev] s.
Proof. reflexivity. Qed.

Lemma emits_emits evs evs' s : emits evs' (emits evs s) = emits (evs ++ evs') s.
Proof. unfold emits. simpl. by rewrite app_assoc. Qed.

Lemma events_of_trace {A : Type} (m : M A) s evs :
  trace (m s).2 = trace s ++ evs -> events m s = evs.
Proof. intros H. unfold events. rewrite H. apply drop_app_length. Qed.

Lemma bind_run {A B : Type} (m : M A) (k : A -> M B) s :
  (m ≫= k) s =
  match m s with
  | (Ok a, s') => k a s'
  | (Raise e, s') => (Raise e, s')
  end.
Proof. reflexivity. Qed.

Lemma extract_pages_run doc text s :
  extract_pages doc text s = (Ok (text ++ document_text doc), s).
Proof.
  revert text. induction doc as [|page doc IH]; intros text; simpl.
  - unfold document_text. simpl. by rewrite app_nil_r.
  - rewrite IH. unfold document_text. simpl. by rewrite <- !app_assoc.
Qed.

Lemma with_fitz_open_run {A : Type} env pdf_path (body : list Page -> M A) s :
  with_fitz_open env pdf_path body s =
  match fitz_open env pdf_path with
  | Ok doc =>
      let (r, s') := body doc (emit (EvOpen pdf_path) s) in
      (r, emit (EvClose pdf_path) s')
  | Raise e => (Raise e, emit (EvOpen pdf_path) s)
  end.
Proof.
  unfold with_fitz_open. rewrite bind_run. simpl. rewrite bind_run.
  unfold lift. by destruct (fitz_open env pdf_path).
Qed.

Lemma extract_vpat_text_run env pdf_path s :
  extract_vpat_text env pdf_path s =
  match fitz_open env pdf_path with
  | Ok doc => (Ok (document_text doc), emits [EvOpen pdf_path; EvClose pdf_path] s)
  | Raise e => (Raise e, emits [EvOpen pdf_path] s)
  end.
Proof.
  unfold extract_vpat_text. rewrite with_fitz_open_run.
  destruct (fitz_open env pdf_path) as [doc|e]; [|done].
  rewrite extract_pages_run. simpl. by rewrite !emit_emits, emits_emits.
Qed.

Lemma scan_pages_cons env i page doc (lines : list (list N)) s :
  scan_pages env i (page :: doc) lines s =
  match get_pixmap page 200 with
  | Raise e => (Raise e, emits (stop_events i (RenderFailed e)) s)
  | Ok png =>
      match save_error (host env) (page_image_path i) png with
      | Some e => (Raise e, emits (stop_events i (SaveFailed png e)) s)
      | None =>
          match read_error (host env) (page_image_path i) with
          | Some e =>
              (Raise e,
               mkState (<[locate (host env) (page_image_path i) := png]>
                          (files s))
                 (calls s) (trace s ++ stop_events i (ReadFailed png e)))
          | None =>
              let res :=
                chat_completions_create env (calls s) (image_request png) in
              match res with
              | Raise e => (Raise e, after_page env i png res s)
              | Ok content =>
                  scan_pages env (S i) doc
                    (lines ++ stripped_lines (strip content))
                    (after_page env i png res s)
              end
          end
      end
  end.
Proof.
  cbn [scan_pages]. rewrite bind_run. unfold page_get_pixmap at 1.
  destruct (get_pixmap page 200) as [png|e]; [|done].
  rewrite bind_run. unfold pix_save at 1. cbn [emit files calls trace].
  destruct (save_error (host env) (page_image_path i) png) as [e|].
  { unfold emit, emits. cbn [files calls trace stop_events].
    by rewrite <- app_assoc. }
  rewrite bind_run. unfold analyse_page_image. rewrite bind_run.
  unfold read_file at 1. unfold emit. cbn [files calls trace].
  destruct (read_error (host env) (page_image_path i)) as [e|].
  { cbn [stop_events]. by rewrite <- !app_assoc. }
  rewrite lookup_insert_eq. rewrite bind_run.
  unfold create at 1. cbn [files calls trace].
  assert (forall res : result (list N),
    mkState (<[locate (host env) (page_image_path i) := png]> (files s))
      (S (calls s))
      ((((trace s ++ [EvPixmap i 200 (Ok png)])
         ++ [EvSave (page_image_path i) png])
        ++ [EvRead (page_image_path i)]) ++ [EvChat (image_request png) res])
    = after_page env i png res s) as Hst.
  { intros res. unfold after_page, page_events. f_equal.
    by rewrite <- !app_assoc. }
  cbn zeta.
  destruct (chat_completions_create env (calls s) (image_request png))
    as [content|e] eqn:Hres.
  - unfold mret, M_ret, emit. cbn [files calls trace]. rewrite Hst.
    destruct (truthy (strip content)) eqn:Ht; [done|].
    apply truthy_false in Ht. rewrite Ht, stripped_lines_nil.
    by rewrite app_nil_r.
  - unfold emit. cbn [files calls trace]. by rewrite Hst.
Qed.

(** A run of the loop, whatever its outcome: the pages before the one
    it stops on passed, in order; the page it stops on decides the
    outcome; no later page is touched. *)
Lemma scan_pages_stops env doc : forall i (lines : list (list N)) s,
  exists ios st,
    length ios <= length doc
    /\ (forall k io, ios !! k = Some io ->
          exists page,
            doc !! k = Some page
            /\ page_passes env (i + k) (calls s + k) page io)
    /\ stops_at env doc (length ios) (i + length ios) (calls s + length ios) st
    /\ scan_pages env i doc lines s
       = (stop_result st (lines ++ concat (map (fun io => page_lines io.2) ios)),
          mkState
            (stop_files (host env) (i + length ios) st
               (staged (host env) i ios (files s)))
            (calls s + length ios + stop_calls st)
            (trace s ++ scan_events i ios
             ++ stop_events (i + length ios) st)).
Proof.
  induction doc as [|page doc IH]; intros i lines s.
  - exists [], Completed. simpl. split_and!.
    + done.
    + intros k io Hk. by rewrite lookup_nil in Hk.
    + done.
    + unfold mret, M_ret, stop_result. simpl.
      rewrite !app_nil_r, !Nat.add_0_r. by destruct s.
  - assert (forall st,
      st ≠ Completed ->
      stops_at env (page :: doc) 0 i (calls s) st ->
      scan_pages env i (page :: doc) lines s
      = (stop_result st lines,
         mkState (stop_files (host env) i st (files s))
           (calls s + stop_calls st) (trace s ++ stop_events i st)) ->
      exists ios st',
        length ios <= length (page :: doc)
        /\ (forall k io, ios !! k = Some io ->
              exists page',
                (page :: doc) !! k = Some page'
                /\ page_passes env (i + k) (calls s + k) page' io)
        /\ stops_at env (page :: doc) (length ios) (i + length ios)
             (calls s + length ios) st'
        /\ scan_pages env i (page :: doc) lines s
           = (stop_result st'
                (lines ++ concat (map (fun io => page_lines io.2) ios)),
              mkState
                (stop_files (host env) (i + length ios) st'
                   (staged (host env) i ios (files s)))
                (calls s + length ios + stop_calls st')
                (trace s ++ scan_events i ios
                 ++ stop_events (i + length ios) st'))) as Hstop.
    { intros st Hst Hat Hrun. exists [], st. cbn [length]. split_and!.
      - lia.
      - intros k io Hk. by rewrite lookup_nil in Hk.
      - by rewrite !Nat.add_0_r.
      - rewrite Hrun. cbn [map concat staged scan_events app].
        by rewrite !Nat.add_0_r, app_nil_r. }
    rewrite scan_pages_cons in Hstop |- *.
    destruct (get_pixmap page 200) as [png|e] eqn:Hpix.
    2:{ apply (Hstop (RenderFailed e)); [done | by exists page |].
        unfold emits. cbn [stop_files stop_calls]. by rewrite Nat.add_0_r. }
    destruct (save_error (host env) (page_image_path i) png) as [e|] eqn:Hsave.
    { apply (Hstop (SaveFailed png e)); [done | by exists page |].
      unfold emits. cbn [stop_files stop_calls]. by rewrite Nat.add_0_r. }
    destruct (read_error (host env) (page_image_path i)) as [e|] eqn:Hread.
    { apply (Hstop (ReadFailed png e)); [done | by exists page |].
      cbn [stop_files stop_calls]. by rewrite Nat.add_0_r. }
    cbn zeta in *.
    destruct (chat_completions_create env (calls s) (image_request png))
      as [content|e] eqn:Hres.
    2:{ apply (Hstop (RequestFailed png e)); [done | by exists page |].
        unfold after_page. cbn [stop_files stop_calls stop_events].
        do 2 f_equal. lia. }
    clear Hstop.
    destruct (IH (S i) (lines ++ stripped_lines (strip content))
                (after_page env i png (Ok content) s))
      as (ios & st & Hlen & Hpass & Hat & ->).
    exists ((png, content) :: ios), st. cbn [length].
    split_and!.
    + lia.
    + intros [|k] io Hk.
      * injection Hk as <-. exists page. rewrite !Nat.add_0_r.
        by split.
      * destruct (Hpass k io Hk) as (page' & Hpage' & Hp).
        exists page'. split; [done|].
        cbn [after_page calls] in Hp.
        replace (i + S k) with (S i + k) by lia.
        by replace (calls s + S k) with (S (calls s) + k) by lia.
    + cbn [after_page calls] in Hat.
      replace (i + S (length ios)) with (S i + length ios) by lia.
      replace (calls s + S (length ios)) with (S (calls s) + length ios)
        by lia.
      destruct st; simpl in *; [lia | done..].
    + cbn [after_page files calls trace staged scan_events map concat].
      replace (i + S (length ios)) with (S i + length ios) by lia.
      unfold page_lines at 2. cbn [snd].
      f_equal; [by rewrite <- app_assoc|].
      f_equal; [lia | by rewrite <- !app_assoc].
Qed.

Lemma analyse_scanned_pdf_run env pdf_path s :
  analyse_scanned_pdf env pdf_path s =
  match fitz_open env pdf_path with
  | Raise e => (Raise e, emit (EvOpen pdf_path) s)
  | Ok doc =>
      match makedirs_error (host env) (lit "images") with
      | Some e =>
          (Raise e,
           emits [EvOpen pdf_path; EvMakedirs (lit "images");
                  EvClose pdf_path] s)
      | None =>
          let (r, s') :=
            scan_pages env 0 doc []
              (emits [EvOpen pdf_path; EvMakedirs (lit "images")] s) in
          match r with
          | Ok lines => (Ok (join [LF] lines), emit (EvClose pdf_path) s')
          | Raise e => (Raise e, emit (EvClose pdf_path) s')
          end
      end
  end.
Proof.
  unfold analyse_scanned_pdf. rewrite bind_run, with_fitz_open_run.
  destruct (fitz_open env pdf_path) as [doc|e]; [|done].
  rewrite bind_run. unfold makedirs, attempt.
  rewrite !emit_emits, emits_emits. cbn [app].
  destruct (makedirs_error (host env) (lit "images")) as [e|].
  { by rewrite emit_emits, emits_emits. }
  destruct (scan_pages env 0 doc [] _) as [[lines|e] s']; done.
Qed.

Lemma analyse_text_with_chat_run env (text : list N) s :
  analyse_text_with_chat env text s =
  let res := chat_completions_create env (calls s) (text_request text) in
  (match res with Ok content => Ok (strip content) | Raise e => Raise e end,
   emit (EvChat (text_request text) res)
     (mkState (files s) (S (calls s)) (trace s))).
Proof.
  unfold analyse_text_with_chat. rewrite bind_run. unfold create.
  cbn zeta. by destruct (chat_completions_create env (calls s) _).
Qed.

Lemma strip_length_truthy (text : list N) :
  50 < length (strip text) -> truthy text = true.
Proof. destruct text; [simpl; lia | done]. Qed.

(** [analyze_pdf], branch by branch, in terms of the functions it calls. *)
Lemma analyze_pdf_run env pdf_path s :
  analyze_pdf env pdf_path s =
  match extract_vpat_text env pdf_path s with
  | (Raise e, s1) => (Raise e, s1)
  | (Ok text, s1) =>
      if 50 <? length (strip text) then
        match analyse_text_with_chat env text s1 with
        | (Ok summary, s2) => (Ok summary, s2)
        | (Raise e, s2) =>
            if is_Exception e then
              match print_error (host env) (fallback_message e) with
              | Some e' => (Raise e', emit (EvPrint (fallback_message e)) s2)
              | None =>
                  analyse_scanned_pdf env pdf_path
                    (emit (EvPrint (fallback_message e)) s2)
              end
            else (Raise e, s2)
        end
      else analyse_scanned_pdf env pdf_path s1
  end.
Proof.
  unfold analyze_pdf. rewrite bind_run.
  destruct (extract_vpat_text env pdf_path s) as [[text|e] s1]; [|done].
  rewrite bind_run.
  destruct (50 <? length (strip text)) eqn:Hlen.
  - apply Nat.ltb_lt in Hlen. rewrite (strip_length_truthy text Hlen).
    cbn [andb]. unfold try_except. rewrite bind_run.
    destruct (analyse_text_with_chat env text s1) as [[summary|e] s2]; [done|].
    destruct (is_Exception e); [|done].
    rewrite bind_run. unfold print, attempt.
    by destruct (print_error (host env) (fallback_message e)).
  - by rewrite andb_false_r.
Qed.

(** The ways a vision analysis of a document that opens runs: the
    scratch directory cannot be made and no page is touched, or the
    loop runs and stops as described. *)
Lemma analyse_scanned_pdf_ends env pdf_path s doc :
  fitz_open env pdf_path = Ok doc ->
  (exists e,
     makedirs_error (host env) (lit "images") = Some e
     /\ analyse_scanned_pdf env pdf_path s
        = (Raise e,
           emits [EvOpen pdf_path; EvMakedirs (lit "images");
                  EvClose pdf_path] s))
  \/ (makedirs_error (host env) (lit "images") = None
      /\ exists ios st,
           length ios <= length doc
           /\ (forall k io, ios !! k = Some io ->
                 exists page,
                   doc !! k = Some page
                   /\ page_passes env k (calls s + k) page io)
           /\ stops_at env doc (length ios) (length ios)
                (calls s + length ios) st
           /\ analyse_scanned_pdf env pdf_path s
              = (stop_summary st ios,
                 mkState
                   (stop_files (host env) (length ios) st
                      (staged (host env) 0 ios (files s)))
                   (calls s + length ios + stop_calls st)
                   (trace s ++ [EvOpen pdf_path; EvMakedirs (lit "images")]
                    ++ scan_events 0 ios ++ stop_events (length ios) st
                    ++ [EvClose pdf_path]))).
Proof.
  intros Hopen. rewrite analyse_scanned_pdf_run, Hopen.
  destruct (makedirs_error (host env) (lit "images")) as [e|] eqn:Hmk.
  { left. by exists e. }
  right. split; [done|].
  destruct (scan_pages_stops env doc 0 []
              (emits [EvOpen pdf_path; EvMakedirs (lit "images")] s))
    as (ios & st & Hlen & Hpass & Hstop & ->).
  exists ios, st. split_and!; try done.
  cbn [emits files calls trace app]. rewrite Nat.add_0_l.
  unfold stop_result, stop_summary, vision_summary.
  destruct (stop_error st); unfold emit; cbn [files calls trace];
    do 2 f_equal; by rewrite <- !app_assoc.
Qed.

(** No event of a page that passes, and none of the page a loop stops
    on, is a document opened or closed or a request to the text
    analyzer. *)
Lemma scan_events_inner ios : forall i,
  Forall (fun ev => is_open ev = false /\ is_close ev = false
                    /\ is_text_call ev = false) (scan_events i ios).
Proof.
  induction ios as [|[png content] ios IH]; intros i; [constructor|].
  cbn [scan_events]. apply Forall_app. split; [|apply IH].
  by repeat constructor.
Qed.

Lemma stop_events_inner i st :
  Forall (fun ev => is_open ev = false /\ is_close ev = false
                    /\ is_text_call ev = false) (stop_events i st).
Proof. destruct st; by repeat constructor. Qed.

(** The calls of pages that pass are logged as calls that returned. *)
Lemma scan_events_no_raise ios : forall i ev,
  ev ∈ scan_events i ios ->
  (forall req e, ev ≠ EvChat req (Raise e))
  /\ (forall k dpi e, ev ≠ EvPixmap k dpi (Raise e)).
Proof.
  induction ios as [|[png content] ios IH]; intros i ev Hev.
  - by apply elem_of_nil in Hev.
  - cbn [scan_events] in Hev. apply elem_of_app in Hev as [Hev|Hev].
    + unfold page_events in Hev. elem_cases Hev; by subst ev.
    + by eapply IH.
Qed.

(** A call logged as raised on the page a loop stops on is the one the
    loop stops on. *)
Lemma stop_events_raise i st :
  (forall req e, EvChat req (Raise e) ∈ stop_events i st ->
     stop_error st = Some e)
  /\ (forall k dpi e, EvPixmap k dpi (Raise e) ∈ stop_events i st ->
        stop_error st = Some e).
Proof.
  split.
  - intros req e H. destruct st; cbn [stop_events page_events] in H;
      elem_cases H. by injection H as _ ->.
  - intros k dpi e H. destruct st; cbn [stop_events page_events] in H;
      elem_cases H. by injection H as _ _ ->.
Qed.

(** Pages that all pass, one for one, render and are answered. *)
Lemma passes_all env doc ios (c : nat) :
  length ios = length doc ->
  (forall k io, ios !! k = Some io ->
     exists page,
       doc !! k = Some page /\ page_passes env k (c + k) page io) ->
  Forall2 (fun page io => get_pixmap page 200 = Ok io.1) doc ios
  /\ (forall k io, ios !! k = Some io ->
        chat_completions_create env (c + k) (image_request io.1) = Ok io.2).
Proof.
  intros Hlen Hpass. split.
  - apply Forall2_same_length_lookup_2; [done|].
    intros k page io Hpage Hio.
    destruct (Hpass k io Hio) as (page' & Hpage' & Hp & _).
    rewrite Hpage in Hpage'. by injection Hpage' as <-.
  - intros k io Hio. by destruct (Hpass k io Hio) as (_ & _ & _ & _ & _ & ?).
Qed.

(** A vision analysis that returns: the document opened, the scratch
    directory was made, every page passed, and the summary holds every
    page's lines. *)
Lemma analyse_scanned_pdf_completed env pdf_path s r s' :
  analyse_scanned_pdf env pdf_path s = (Ok r, s') ->
  exists doc (ios : list (list Byte.byte * list N)),
    fitz_open env pdf_path = Ok doc
    /\ makedirs_error (host env) (lit "images") = None
    /\ length ios = length doc
    /\ (forall k io, ios !! k = Some io ->
          exists page,
            doc !! k = Some page /\ page_passes env k (calls s + k) page io)
    /\ s' = mkState (staged (host env) 0 ios (files s))
              (calls s + length doc)
              (trace s ++ vision_events pdf_path ios)
    /\ r = vision_summary ios.
Proof.
  intros Hrun.
  destruct (fitz_open env pdf_path) as [doc|e] eqn:Hopen.
  2:{ by rewrite analyse_scanned_pdf_run, Hopen in Hrun. }
  destruct (analyse_scanned_pdf_ends env pdf_path s doc Hopen)
    as [(e & _ & Heq)|(Hmk & ios & st & Hlen & Hpass & Hstop & Heq)].
  { by rewrite Heq in Hrun. }
  rewrite Heq in Hrun. unfold stop_summary in Hrun.
  destruct st; try done. cbn [stop_error] in Hrun.
  injection Hrun as <- <-. cbn [stops_at] in Hstop.
  exists doc, ios. split_and!; try done.
  cbn [stop_files stop_calls stop_events]. unfold vision_events.
  f_equal. lia.
Qed.

(** A vision analysis that returns: the document opened, every page
    was rendered and answered, and the summary holds every page's lines. *)
Lemma analyse_scanned_pdf_ok env pdf_path s r s' :
  analyse_scanned_pdf env pdf_path s = (Ok r, s') ->
  exists doc (ios : list (list Byte.byte * list N)),
    fitz_open env pdf_path = Ok doc
    /\ Forall2 (fun page io => get_pixmap page 200 = Ok io.1) doc ios
    /\ (forall k io, ios !! k = Some io ->
          chat_completions_create env (calls s + k) (image_request io.1)
          = Ok io.2)
    /\ calls s' = calls s + length doc
    /\ trace s' = trace s ++ vision_events pdf_path ios
    /\ r = vision_summary ios.
Proof.
  intros Hrun.
  apply analyse_scanned_pdf_completed in Hrun
    as (doc & ios & Hopen & _ & Hlen & Hpass & -> & ->).
  destruct (passes_all env doc ios (calls s) Hlen Hpass) as [Hpix Hres].
  by exists doc, ios.
Qed.

(** Whatever its outcome, a vision analysis only appends to the log,
    makes no request to the text analyzer, and fails with the exception
    of any request or rendering that raised. *)
Lemma analyse_scanned_pdf_log env pdf_path s :
  exists evs,
    trace (analyse_scanned_pdf env pdf_path s).2 = trace s ++ evs
    /\ Forall (fun ev => is_text_call ev = false) evs
    /\ (forall req e, EvChat req (Raise e) ∈ evs ->
          (analyse_scanned_pdf env pdf_path s).1 = Raise e)
    /\ (forall k dpi e, EvPixmap k dpi (Raise e) ∈ evs ->
          (analyse_scanned_pdf env pdf_path s).1 = Raise e).
Proof.
  destruct (fitz_open env pdf_path) as [doc|e] eqn:Hopen.
  - destruct (analyse_scanned_pdf_ends env pdf_path s doc Hopen)
      as [(e & _ & ->)|(_ & ios & st & _ & _ & _ & ->)].
    + exists [EvOpen pdf_path; EvMakedirs (lit "images"); EvClose pdf_path].
      split_and!; [done | by repeat constructor | ..].
      * intros req e' H. elem_cases H.
      * intros k dpi e' H. elem_cases H.
    + pose proof (scan_events_inner ios 0) as Hscan.
      pose proof (stop_events_inner (length ios) st) as Hst.
      destruct (stop_events_raise (length ios) st) as [Hchat Hpix].
      exists ([EvOpen pdf_path; EvMakedirs (lit "images")]
              ++ scan_events 0 ios ++ stop_events (length ios) st
              ++ [EvClose pdf_path]).
      assert (forall ev,
        ev ∈ [EvOpen pdf_path; EvMakedirs (lit "images")]
             ++ scan_events 0 ios ++ stop_events (length ios) st
             ++ [EvClose pdf_path] ->
        (forall req e, ev ≠ EvChat req (Raise e))
        /\ (forall k dpi e, ev ≠ EvPixmap k dpi (Raise e))
        \/ ev ∈ stop_events (length ios) st) as Hin.
      { intros ev H. apply elem_of_app in H as [H|H].
        { left. elem_cases H; by subst ev. }
        apply elem_of_app in H as [H|H].
        { left. by eapply scan_events_no_raise. }
        apply elem_of_app in H as [H|H]; [by right|].
        left. elem_cases H; by subst ev. }
      split_and!.
      * done.
      * apply Forall_app. split; [by repeat constructor|].
        apply Forall_app. split.
        { eapply Forall_impl; [exact Hscan|]. by intros ev (_ & _ & ?). }
        apply Forall_app. split; [|by repeat constructor].
        eapply Forall_impl; [exact Hst|]. by intros ev (_ & _ & ?).
      * intros req e H. cbn [fst]. unfold stop_summary.
        destruct (Hin _ H) as [[Hne _]|Hstop]; [by destruct (Hne req e)|].
        by rewrite (Hchat req e Hstop).
      * intros k dpi e H. cbn [fst]. unfold stop_summary.
        destruct (Hin _ H) as [[_ Hne]|Hstop]; [by destruct (Hne k dpi e)|].
        by rewrite (Hpix k dpi e Hstop).
  - rewrite analyse_scanned_pdf_run, Hopen.
    exists [EvOpen pdf_path]. split_and!; [done | by repeat constructor | ..].
    + intros req e' H. elem_cases H.
    + intros k dpi e' H. elem_cases H.
Qed.

(** When the document opens, the host lets the staging through, every
    page renders and every image request from now on is answered, the
    vision analysis returns. *)
Lemma analyse_scanned_pdf_returns env pdf_path doc s :
  fitz_open env pdf_path = Ok doc ->
  host_allows_staging (host env) ->
  Forall (fun page => exists png, get_pixmap page 200 = Ok png) doc ->
  (forall n png, calls s <= n -> exists content,
     chat_completions_create env n (image_request png) = Ok content) ->
  exists r s', analyse_scanned_pdf env pdf_path s = (Ok r, s').
Proof.
  intros Hopen (Hmk & Hsave & Hread) Hpix Hchat.
  destruct (analyse_scanned_pdf_ends env pdf_path s doc Hopen)
    as [(e & Hmk' & _)|(_ & ios & st & _ & _ & Hstop & ->)].
  { by rewrite Hmk in Hmk'. }
  destruct st as [|e|png e|png e|png e]; cbn [stops_at] in Hstop.
  - unfold stop_summary. cbn [stop_error]. eauto.
  - destruct Hstop as (page & Hpage & Hraise).
    apply list_elem_of_lookup_2 in Hpage.
    apply (proj1 (Forall_forall _ _) Hpix) in Hpage as [png Hpng].
    by rewrite Hraise in Hpng.
  - destruct Hstop as (page & _ & _ & Hraise). by rewrite Hsave in Hraise.
  - destruct Hstop as (page & _ & _ & _ & Hraise). by rewrite Hread in Hraise.
  - destruct Hstop as (page & _ & _ & _ & _ & Hraise).
    destruct (Hchat (calls s + length ios) png) as [content Hok]; [lia|].
    by rewrite Hraise in Hok.
Qed.

End Runs.

(** ** Counting analyzer requests in a log *)

Lemma text_calls_app evs evs' :
  text_calls (evs ++ evs') = text_calls evs + text_calls evs'.
Proof. unfold text_calls. by rewrite List.filter_app, length_app. Qed.

Lemma text_calls_none evs :
  Forall (fun ev => is_text_call ev = false) evs -> text_calls evs = 0.
Proof.
  unfold text_calls. induction 1 as [|ev evs Hev _ IH]; [done|].
  simpl. by rewrite Hev.
Qed.

(** ** The lines of an answer, said directly *)

Section LineFacts.

Implicit Types (l piece answer : list N) (ls pieces : list (list N)).

Lemma strip_spaces l : Forall space l -> strip l = [].
Proof.
  intros H. unfold strip.
  rewrite <- (app_nil_r l), (lstrip_spaces l [] H). reflexivity.
Qed.

Lemma strip_nil_iff l : strip l = [] <-> Forall space l.
Proof.
  split; [|apply strip_spaces].
  intros H. destruct (strip_decomp l) as (ws1 & ws2 & H1 & H2 & Hl).
  rewrite Hl, H. apply Forall_app. split; [done|]. by apply Forall_app.
Qed.

(** [strip] gives the piece without the whitespace at its ends. *)
Lemma trimmed_of_strip piece : trimmed_of piece (strip piece).
Proof.
  split; [apply strip_decomp|]. split; [apply strip_head | apply strip_last].
Qed.

(** And nothing else is the piece without the whitespace at its ends. *)
Lemma trimmed_of_unique piece l : trimmed_of piece l -> l = strip piece.
Proof.
  intros ((ws1 & ws2 & H1 & H2 & ->) & Hhead & Hlast).
  unfold strip. rewrite (lstrip_spaces ws1 _ H1).
  destruct l as [|c l'] eqn:El.
  - simpl. rewrite <- (app_nil_r ws2), (lstrip_spaces ws2 [] H2). done.
  - rewrite <- El in *. rewrite (lstrip_fixed (l ++ ws2)).
    2:{ intros d Hd. apply Hhead. rewrite El in *. exact Hd. }
    unfold rstrip. rewrite reverse_app.
    rewrite (lstrip_spaces (reverse ws2) _); [|by apply Forall_reverse].
    rewrite lstrip_fixed; [by rewrite reverse_involutive|].
    intros d. rewrite head_reverse. apply Hlast.
Qed.

Lemma nonblank_filter pieces :
  filter (fun piece => ¬ Forall space piece) pieces
  = filter (fun line => truthy (strip line) = true) pieces.
Proof.
  apply list_filter_iff. intros piece.
  rewrite truthy_true, <- strip_nil_iff. done.
Qed.

(** The lines the formatter collects from an answer are its lines, as
    said directly, and nothing else is. *)
Lemma lines_from_page_lines answer ls :
  lines_from answer ls <-> ls = page_lines answer.
Proof.
  unfold page_lines. rewrite stripped_lines_strip. unfold stripped_lines.
  split.
  - intros (pieces & Hne & <- & Hlf & Hall).
    rewrite (split_join LF pieces Hne Hlf), <- nonblank_filter.
    induction Hall as [|piece l qs ls' Hl _ IH]; [done|].
    cbn [map]. by rewrite IH, (trimmed_of_unique piece l Hl).
  - intros ->. exists (split LF answer). split_and!.
    + apply split_not_nil.
    + apply join_split.
    + apply split_pieces.
    + rewrite nonblank_filter.
      induction (filter _ (split LF answer)) as [|piece qs IH];
        constructor; [apply trimmed_of_strip | done].
Qed.

(** An answer of whitespace only has no line. *)
Lemma page_lines_blank answer : Forall space answer -> page_lines answer = [].
Proof. intros H. unfold page_lines. by rewrite (strip_spaces answer H). Qed.

End LineFacts.
(** ** The triage of [analyze_pdf] *)

Section Triage.

Implicit Types (env : Env) (s : State) (pdf_path text : list N).

(** What the extraction logs and leaves behind when it returns. *)
Lemma extract_vpat_text_ok env pdf_path s text s1 :
  extract_vpat_text env pdf_path s = (Ok text, s1) ->
  exists doc,
    fitz_open env pdf_path = Ok doc /\ text = document_text doc
    /\ s1 = emits [EvOpen pdf_path; EvClose pdf_path] s.
Proof.
  rewrite extract_vpat_text_run.
  destruct (fitz_open env pdf_path) as [doc|e]; [|done].
  intros [= <- <-]. by exists doc.
Qed.

(** [analyze_pdf] only appends to the log. *)
Lemma analyze_pdf_log env pdf_path s :
  exists evs, trace (analyze_pdf env pdf_path s).2 = trace s ++ evs.
Proof.
  assert (forall s0 pre, trace s0 = trace s ++ pre ->
    exists evs,
      trace (analyse_scanned_pdf env pdf_path s0).2 = trace s ++ evs)
    as Hvision.
  { intros s0 pre Hpre.
    destruct (analyse_scanned_pdf_log env pdf_path s0) as (evs & -> & _).
    exists (pre ++ evs). by rewrite Hpre, app_assoc. }
  rewrite analyze_pdf_run, extract_vpat_text_run.
  destruct (fitz_open env pdf_path) as [doc|e0]; [|by eexists].
  destruct (50 <? length (strip (document_text doc))).
  - rewrite analyse_text_with_chat_run. cbn zeta.
    destruct (chat_completions_create env _ _) as [content|e0].
    + eexists. cbn [snd emit emits trace]. by rewrite <- app_assoc.
    + destruct (is_Exception e0).
      * destruct (print_error (host env) (fallback_message e0)) as [e1|].
        -- eexists. cbn [snd emit emits trace]. by rewrite <- !app_assoc.
        -- eapply Hvision. cbn [emit emits trace]. by rewrite <- !app_assoc.
      * eexists. cbn [snd emit emits trace]. by rewrite <- app_assoc.
  - by eapply Hvision.
Qed.

(** C1: when the extracted text is longer than 50 characters once
    stripped, [analyze_pdf] requests the text analyzer exactly once,
    and that request is the first completion request of the run, before
    any request to the image analyzer; when it is 50 characters or
    fewer, the text analyzer is never requested and the run is that of
    the vision analysis, started right after the extraction. *)
Theorem text_analyzer_by_threshold env pdf_path s text s1 :
  extract_vpat_text env pdf_path s = (Ok text, s1) ->
  (50 < length (strip text) ->
     exists res rest,
       events (analyze_pdf env pdf_path) s
       = [EvOpen pdf_path; EvClose pdf_path; EvChat (text_request text) res]
         ++ rest
       /\ text_calls (events (analyze_pdf env pdf_path) s) = 1
       /\ head (chat_calls (events (analyze_pdf env pdf_path) s))
          = Some (EvChat (text_request text) res))
  /\ (length (strip text) <= 50 ->
       analyze_pdf env pdf_path s = analyse_scanned_pdf env pdf_path s1
       /\ text_calls (events (analyze_pdf env pdf_path) s) = 0).
Proof.
  intros Hext.
  pose proof (analyze_pdf_run env pdf_path s) as Hrun. rewrite Hext in Hrun.
  apply extract_vpat_text_ok in Hext as (doc & Hopen & -> & ->).
  set (text := document_text doc) in *.
  split; intros Hlen.
  - apply Nat.ltb_lt in Hlen. rewrite Hlen in Hrun.
    rewrite analyse_text_with_chat_run in Hrun. cbn zeta in Hrun.
    set (res := chat_completions_create env _ (text_request text)) in Hrun.
    assert (exists rest,
      trace (analyze_pdf env pdf_path s).2
      = trace s ++ [EvOpen pdf_path; EvClose pdf_path;
                    EvChat (text_request text) res] ++ rest
      /\ Forall (fun ev => is_text_call ev = false) rest)
      as (rest & Htrace & Hrest).
    { destruct res as [content|e].
      { exists []. rewrite Hrun. cbn [snd emit emits trace].
        split; [by rewrite <- !app_assoc | constructor]. }
      destruct (is_Exception e).
      2:{ exists []. rewrite Hrun. cbn [snd emit emits trace].
          split; [by rewrite <- !app_assoc | constructor]. }
      destruct (print_error (host env) (fallback_message e)) as [e1|].
      { exists [EvPrint (fallback_message e)]. rewrite Hrun.
        cbn [snd emit emits trace].
        split; [by rewrite <- !app_assoc | by repeat constructor]. }
      - destruct (analyse_scanned_pdf_log env pdf_path
          (emit (EvPrint (fallback_message e))
             (emit (EvChat (text_request text) (Raise e))
                (mkState (files (emits [EvOpen pdf_path; EvClose pdf_path] s))
                   (S (calls (emits [EvOpen pdf_path; EvClose pdf_path] s)))
                   (trace (emits [EvOpen pdf_path; EvClose pdf_path] s))))))
          as (evs & Htrace & Hno & _).
        exists (EvPrint (fallback_message e) :: evs).
        rewrite Hrun, Htrace. cbn [emit emits trace].
        split; [by rewrite <- !app_assoc | by constructor]. }
    apply events_of_trace in Htrace. exists res, rest. rewrite Htrace.
    repeat split.
    rewrite text_calls_app, (text_calls_none rest Hrest). reflexivity.
  - assert ((50 <? length (strip text)) = false) as Hlt by by apply Nat.ltb_ge.
    rewrite Hlt in Hrun. split; [done|].
    destruct (analyse_scanned_pdf_log env pdf_path
                (emits [EvOpen pdf_path; EvClose pdf_path] s))
      as (evs & Htrace & Hno & _).
    rewrite <- Hrun in Htrace. cbn [emits trace] in Htrace.
    rewrite <- app_assoc in Htrace. apply events_of_trace in Htrace.
    rewrite Htrace, text_calls_app, (text_calls_none evs Hno). done.
Qed.

Lemma text_analyzer_by_threshold_witness :
  exists res rest,
    events (analyze_pdf Samples.env_text Samples.pdf) (init ∅)
    = [EvOpen Samples.pdf; EvClose Samples.pdf;
       EvChat (text_request (document_text [Samples.text_page])) res] ++ rest
    /\ text_calls (events (analyze_pdf Samples.env_text Samples.pdf) (init ∅)) = 1
    /\ head (chat_calls (events (analyze_pdf Samples.env_text Samples.pdf) (init ∅)))
       = Some (EvChat (text_request (document_text [Samples.text_page])) res).
Proof.
  refine (proj1 (text_analyzer_by_threshold Samples.env_text Samples.pdf
                   (init ∅) (document_text [Samples.text_page])
                   (emits [EvOpen Samples.pdf; EvClose Samples.pdf] (init ∅))
                   _) _).
  - reflexivity.
  - vm_compute. lia.
Defined.

(** C7: when the document cannot be opened, [analyze_pdf] fails with
    the exception of the open: the one attempt to open is all the run
    logs, so no fallback is started and neither analyzer is requested. *)
Theorem open_failure_is_fatal env pdf_path s e :
  fitz_open env pdf_path = Raise e ->
  analyze_pdf env pdf_path s = (Raise e, emit (EvOpen pdf_path) s)
  /\ events (analyze_pdf env pdf_path) s = [EvOpen pdf_path]
  /\ chat_calls (events (analyze_pdf env pdf_path) s) = [].
Proof.
  intros Hopen.
  assert (analyze_pdf env pdf_path s = (Raise e, emit (EvOpen pdf_path) s))
    as Hrun.
  { by rewrite analyze_pdf_run, extract_vpat_text_run, Hopen. }
  assert (events (analyze_pdf env pdf_path) s = [EvOpen pdf_path]) as Hev.
  { apply events_of_trace. by rewrite Hrun. }
  by rewrite Hev.
Qed.

Lemma open_failure_is_fatal_witness :
  analyze_pdf Samples.env_unreadable Samples.pdf (init ∅)
  = (Raise (Exception "FileDataError" (lit "cannot open")),
     emit (EvOpen Samples.pdf) (init ∅))
  /\ events (analyze_pdf Samples.env_unreadable Samples.pdf) (init ∅)
     = [EvOpen Samples.pdf]
  /\ chat_calls (events (analyze_pdf Samples.env_unreadable Samples.pdf) (init ∅))
     = [].
Proof.
  apply (open_failure_is_fatal Samples.env_unreadable Samples.pdf (init ∅)).
  reflexivity.
Defined.

(** On a host where [images] is a regular file, the analysis of a
    document without a page fails at the scratch directory. *)
Lemma no_page_makedirs_raises :
  fitz_open MoreSamples.env_no_page_blocked Samples.pdf = Ok []
  /\ (analyze_pdf MoreSamples.env_no_page_blocked Samples.pdf (init ∅)).1
     = Raise MoreSamples.file_exists
  /\ (analyze_pdf MoreSamples.env_no_page_blocked Samples.pdf (init ∅)).1
     ≠ Ok [].
Proof. split_and!; [reflexivity | reflexivity | discriminate]. Qed.

(** C9, amended: for a document that opens and has no page,
    [analyze_pdf] requests no analyzer: the extracted text is empty,
    the threshold test fails, and the vision analysis opens the
    document, makes the scratch directory, loops over nothing and
    closes the document.  It returns the empty string, unless making
    the scratch directory raises: that exception is then the outcome. *)
Theorem no_page_document env pdf_path s :
  fitz_open env pdf_path = Ok [] ->
  extract_vpat_text env pdf_path s
  = (Ok [], emits [EvOpen pdf_path; EvClose pdf_path] s)
  /\ analyze_pdf env pdf_path s
     = (match makedirs_error (host env) (lit "images") with
        | None => Ok []
        | Some e => Raise e
        end,
        emits [EvOpen pdf_path; EvClose pdf_path; EvOpen pdf_path;
               EvMakedirs (lit "images"); EvClose pdf_path] s)
  /\ chat_calls (events (analyze_pdf env pdf_path) s) = [].
Proof.
  intros Hopen.
  assert (extract_vpat_text env pdf_path s
          = (Ok [], emits [EvOpen pdf_path; EvClose pdf_path] s)) as Hext.
  { by rewrite extract_vpat_text_run, Hopen. }
  assert (analyze_pdf env pdf_path s
          = (match makedirs_error (host env) (lit "images") with
             | None => Ok []
             | Some e => Raise e
             end,
             emits [EvOpen pdf_path; EvClose pdf_path; EvOpen pdf_path;
                    EvMakedirs (lit "images"); EvClose pdf_path] s))
    as Hrun.
  { rewrite analyze_pdf_run, Hext. cbn [strip lstrip rstrip length Nat.ltb].
    rewrite analyse_scanned_pdf_run, Hopen.
    destruct (makedirs_error (host env) (lit "images")) as [e|].
    - by rewrite emits_emits.
    - cbn [scan_pages]. unfold mret, M_ret. cbn [join].
      by rewrite emit_emits, !emits_emits. }
  split_and!; [done..|].
  assert (events (analyze_pdf env pdf_path) s
          = [EvOpen pdf_path; EvClose pdf_path; EvOpen pdf_path;
             EvMakedirs (lit "images"); EvClose pdf_path]) as ->.
  { apply events_of_trace. by rewrite Hrun. }
  reflexivity.
Qed.

Lemma no_page_document_witness :
  (analyze_pdf Samples.env_no_page Samples.pdf (init ∅)).1 = Ok []
  /\ chat_calls (events (analyze_pdf Samples.env_no_page Samples.pdf) (init ∅))
     = [].
Proof.
  destruct (no_page_document Samples.env_no_page Samples.pdf (init ∅) eq_refl)
    as (_ & Hrun & Hchat).
  split; [by rewrite Hrun | exact Hchat].
Defined.

End Triage.

(** ** The ways [analyze_pdf] runs *)

Section Cases.

Implicit Types (env : Env) (s : State) (pdf_path : list N).

Lemma filter_none (f : Event -> bool) (evs : list Event) :
  Forall (fun ev => f ev = false) evs -> List.filter f evs = [].
Proof.
  induction 1 as [|ev evs Hev _ IH]; [done|]. simpl. by rewrite Hev.
Qed.

Lemma count_app (f : Event -> bool) (evs evs' : list Event) :
  length (List.filter f (evs ++ evs'))
  = length (List.filter f evs) + length (List.filter f evs').
Proof. by rewrite List.filter_app, length_app. Qed.

Lemma count_none (f : Event -> bool) (evs : list Event) :
  Forall (fun ev => f ev = false) evs -> length (List.filter f evs) = 0.
Proof. intros H. by rewrite filter_none. Qed.

(** The ways [analyze_pdf] runs: the open fails; the run ends on the
    text path, on an answer of the text analyzer, on an exception the
    handler does not catch, or on an exception of its print; or the
    vision analysis takes over, after a text too short or after the
    handler has printed. *)
Lemma analyze_pdf_cases env pdf_path s :
  (exists e,
     fitz_open env pdf_path = Raise e
     /\ analyze_pdf env pdf_path s = (Raise e, emits [EvOpen pdf_path] s))
  \/ (exists doc r pre,
        fitz_open env pdf_path = Ok doc
        /\ length (chat_calls pre) = 1
        /\ opens pre = 1 /\ closes pre = 1
        /\ Forall (fun ev => is_pixmap ev = false) pre
        /\ Forall (fun ev => is_image_call ev = false) pre
        /\ analyze_pdf env pdf_path s
           = (r, mkState (files s) (S (calls s)) (trace s ++ pre)))
  \/ (exists doc pre c,
        fitz_open env pdf_path = Ok doc
        /\ c <= 1
        /\ length (chat_calls pre) = c
        /\ opens pre = 1 /\ closes pre = 1
        /\ Forall (fun ev => is_pixmap ev = false) pre
        /\ Forall (fun ev => is_image_call ev = false) pre
        /\ analyze_pdf env pdf_path s
           = analyse_scanned_pdf env pdf_path
               (mkState (files s) (calls s + c) (trace s ++ pre))).
Proof.
  rewrite analyze_pdf_run, extract_vpat_text_run.
  destruct (fitz_open env pdf_path) as [doc|e0] eqn:Hopen;
    [|left; by exists e0].
  right. destruct (50 <? length (strip (document_text doc))) eqn:Hlen.
  - rewrite analyse_text_with_chat_run. cbn zeta. cbn [emits calls].
    set (text := document_text doc).
    assert (forall (res : result (list N)) tail,
      Forall (fun ev => exists msg, ev = EvPrint msg) tail ->
      let pre := [EvOpen pdf_path; EvClose pdf_path;
                  EvChat (text_request text) res] ++ tail in
      length (chat_calls pre) = 1
      /\ opens pre = 1 /\ closes pre = 1
      /\ Forall (fun ev => is_pixmap ev = false) pre
      /\ Forall (fun ev => is_image_call ev = false) pre) as Hends.
    { intros res tail Htail pre.
      assert (Forall (fun ev => is_chat ev = false /\ is_open ev = false
                                /\ is_close ev = false /\ is_pixmap ev = false
                                /\ is_image_call ev = false) tail) as Hall.
      { eapply Forall_impl; [exact Htail|]. by intros ev [msg ->]. }
      subst pre. split_and!.
      - unfold chat_calls. rewrite count_app, (count_none _ tail); [done|].
        eapply Forall_impl; [exact Hall|]. by intros ev (H & _).
      - unfold opens. rewrite count_app, (count_none _ tail); [done|].
        eapply Forall_impl; [exact Hall|]. by intros ev (_ & H & _).
      - unfold closes. rewrite count_app, (count_none _ tail); [done|].
        eapply Forall_impl; [exact Hall|]. by intros ev (_ & _ & H & _).
      - apply Forall_app. split; [by repeat constructor|].
        eapply Forall_impl; [exact Hall|]. by intros ev (_ & _ & _ & H & _).
      - apply Forall_app. split; [by repeat constructor|].
        eapply Forall_impl; [exact Hall|]. by intros ev (_ & _ & _ & _ & H). }
    destruct (chat_completions_create env (calls s) (text_request text))
      as [content|e0] eqn:Hres.
    { left. destruct (Hends (Ok content) []) as (H1 & H2 & H3 & H4 & H5);
        [constructor|].
      exists doc, (Ok (strip content)), ([EvOpen pdf_path; EvClose pdf_path;
                  EvChat (text_request text) (Ok content)] ++ []).
      split_and!; try done.
      unfold emit, emits. cbn [files calls trace].
      by rewrite <- !app_assoc. }
    destruct (is_Exception e0).
    2:{ left. destruct (Hends (Raise e0) []) as (H1 & H2 & H3 & H4 & H5);
          [constructor|].
        exists doc, (Raise e0), ([EvOpen pdf_path; EvClose pdf_path;
                  EvChat (text_request text) (Raise e0)] ++ []).
        split_and!; try done.
        unfold emit, emits. cbn [files calls trace].
        by rewrite <- !app_assoc. }
    destruct (Hends (Raise e0) [EvPrint (fallback_message e0)])
      as (H1 & H2 & H3 & H4 & H5); [repeat constructor; by eexists|].
    destruct (print_error (host env) (fallback_message e0)) as [e1|].
    { left.
      exists doc, (Raise e1), ([EvOpen pdf_path; EvClose pdf_path;
                  EvChat (text_request text) (Raise e0)]
                  ++ [EvPrint (fallback_message e0)]).
      split_and!; try done.
      unfold emit, emits. cbn [files calls trace].
      by rewrite <- !app_assoc. }
    right.
    exists doc, ([EvOpen pdf_path; EvClose pdf_path;
                  EvChat (text_request text) (Raise e0)]
                  ++ [EvPrint (fallback_message e0)]), 1.
    split_and!; try done.
    unfold emit, emits. cbn [files calls trace]. f_equal. f_equal.
    + lia.
    + by rewrite <- !app_assoc.
  - right. exists doc, [EvOpen pdf_path; EvClose pdf_path], 0.
    split_and!; try done; [lia | by repeat constructor..|].
    unfold emits. by rewrite Nat.add_0_r.
Qed.

End Cases.

(** ** The vision analysis *)

Section Vision.

Implicit Types (env : Env) (s : State) (pdf_path : list N)
  (ios : list (list Byte.byte * list N)).

Lemma scan_events_chat_calls ios : forall i,
  chat_calls (scan_events i ios)
  = map (fun io => EvChat (image_request io.1) (Ok io.2)) ios.
Proof.
  induction ios as [|[png content] ios IH]; intros i; [done|].
  cbn [scan_events]. unfold chat_calls. rewrite List.filter_app.
  fold (chat_calls (scan_events (S i) ios)). rewrite IH. reflexivity.
Qed.

Lemma scan_events_renderings ios : forall i,
  renderings (scan_events i ios)
  = imap (fun k io => EvPixmap (i + k) 200 (Ok io.1)) ios.
Proof.
  induction ios as [|[png content] ios IH]; intros i; [done|].
  cbn [scan_events]. unfold renderings. rewrite List.filter_app.
  fold (renderings (scan_events (S i) ios)). rewrite IH.
  cbn [imap page_events List.filter is_pixmap app fst].
  rewrite Nat.add_0_r. f_equal.
  apply imap_ext. intros k io _. simpl. f_equal. lia.
Qed.

Lemma vision_events_chat_calls pdf_path ios :
  chat_calls (vision_events pdf_path ios)
  = map (fun io => EvChat (image_request io.1) (Ok io.2)) ios.
Proof.
  unfold vision_events, chat_calls. rewrite !List.filter_app.
  fold (chat_calls (scan_events 0 ios)). rewrite scan_events_chat_calls.
  cbn [List.filter is_chat app]. by rewrite app_nil_r.
Qed.

Lemma vision_events_renderings pdf_path ios :
  renderings (vision_events pdf_path ios)
  = imap (fun k io => EvPixmap k 200 (Ok io.1)) ios.
Proof.
  unfold vision_events, renderings. rewrite !List.filter_app.
  fold (renderings (scan_events 0 ios)). rewrite scan_events_renderings.
  cbn [List.filter is_pixmap app]. by rewrite app_nil_r.
Qed.

(** The collected lines of all pages are non-empty, stripped and free
    of line feeds. *)
Lemma page_lines_Forall ios :
  Forall (fun l => l ≠ [] /\ strip l = l /\ (LF ∉ l))
         (concat (map (fun io => page_lines io.2) ios)).
Proof.
  apply Forall_concat, Forall_map, Forall_forall. intros io _.
  apply stripped_lines_Forall.
Qed.

(** The lines of a vision summary are the collected lines. *)
Lemma vision_summary_lines ios :
  lines_of (vision_summary ios) = concat (map (fun io => page_lines io.2) ios).
Proof.
  apply lines_of_join. eapply Forall_impl; [apply page_lines_Forall|].
  simpl. intros l (? & _ & ?). done.
Qed.

(** The lines of every page follow from its answer. *)
Lemma page_lines_from ios :
  Forall2 (fun io ls => lines_from io.2 ls) ios
    (map (fun io => page_lines io.2) ios).
Proof.
  induction ios as [|io ios IH]; constructor; [|exact IH].
  by apply lines_from_page_lines.
Qed.

(** A line that stripping leaves alone has no white space at either
    end. *)
Lemma stripped_ends (l : list N) :
  strip l = l ->
  (forall c, head l = Some c -> isspace c = false)
  /\ (forall c, last l = Some c -> isspace c = false).
Proof.
  intros Hl. split; intros c Hc; rewrite <- Hl in Hc.
  - by eapply strip_head.
  - by eapply strip_last.
Qed.

(** C4: in the vision analysis of a document that opens, a run that
    returns has rendered every page at 200 DPI, in page order, and has
    sent one completion request per page, in page order, each with the
    image of that page alone.  The summary is made page after page of
    lines of the answers: each answer is cut at its line feeds, the
    pieces that are all white space are dropped, and every other piece
    gives one line, the piece without the white space at its two ends;
    the lines are joined by line feeds.  The run does return when the
    host lets the images be staged, every page renders and every image
    request of the run is answered. *)
Theorem vision_fallback_per_page env pdf_path s doc :
  fitz_open env pdf_path = Ok doc ->
  (forall r s', analyse_scanned_pdf env pdf_path s = (Ok r, s') ->
     exists ios,
       Forall2 (fun page io => get_pixmap page 200 = Ok io.1) doc ios
       /\ (forall k io, ios !! k = Some io ->
             chat_completions_create env (calls s + k) (image_request io.1)
             = Ok io.2)
       /\ events (analyse_scanned_pdf env pdf_path) s
          = vision_events pdf_path ios
       /\ renderings (events (analyse_scanned_pdf env pdf_path) s)
          = imap (fun k io => EvPixmap k 200 (Ok io.1)) ios
       /\ chat_calls (events (analyse_scanned_pdf env pdf_path) s)
          = map (fun io => EvChat (image_request io.1) (Ok io.2)) ios
       /\ (exists lss,
             lines_of r = concat lss
             /\ Forall2 (fun io ls => lines_from io.2 ls) ios lss)
       /\ r = join [LF] (lines_of r))
  /\ (host_allows_staging (host env) ->
      Forall (fun page => exists png, get_pixmap page 200 = Ok png) doc ->
      (forall n png, calls s <= n -> exists content,
         chat_completions_create env n (image_request png) = Ok content) ->
      exists r s', analyse_scanned_pdf env pdf_path s = (Ok r, s')).
Proof.
  intros Hopen. split.
  - intros r s' Hrun.
    pose proof Hrun as Hok.
    apply analyse_scanned_pdf_ok in Hok
      as (doc' & ios & Hopen' & Hpix & Hres & _ & Htrace & ->).
    rewrite Hopen in Hopen'. injection Hopen' as <-.
    assert (events (analyse_scanned_pdf env pdf_path) s
            = vision_events pdf_path ios) as Hev.
    { apply events_of_trace. by rewrite Hrun. }
    exists ios. rewrite Hev, vision_summary_lines.
    split_and!; try done.
    + apply vision_events_renderings.
    + apply vision_events_chat_calls.
    + exists (map (fun io => page_lines io.2) ios).
      split; [done | apply page_lines_from].
  - intros Hhost Hpix Hchat. by apply (analyse_scanned_pdf_returns env pdf_path doc).
Qed.

Lemma vision_fallback_per_page_witness :
  exists r s',
    analyse_scanned_pdf Samples.env_scan Samples.pdf (init ∅) = (Ok r, s').
Proof.
  refine (proj2 (vision_fallback_per_page Samples.env_scan Samples.pdf (init ∅)
                   [Samples.scan1; Samples.scan2] eq_refl) _ _ _).
  - by repeat split.
  - repeat constructor; eexists; reflexivity.
  - intros n png _. destruct n; eexists; reflexivity.
Defined.

(** No image request raised in a log of the text path alone. *)
Lemma image_call_not_text (text : list N) res (req : request) e :
  is_image_call (EvChat req (Raise e)) = true ->
  EvChat req (Raise e) ≠ EvChat (text_request text) res.
Proof. intros Himg [= -> _]. done. Qed.

(** C8: when a request to the image analyzer raises during the vision
    analysis, the analysis fails with that exception, and so does
    [analyze_pdf].  A vision analysis raises, or else every page of
    the document has been rendered and has been answered by the
    provider, one logged request per page, and the analysis returns
    the lines of all the answers: the outcome is the whole summary or
    an exception, never the lines of some pages only. *)
Theorem vision_failure_is_fatal env pdf_path s :
  (forall req e,
     EvChat req (Raise e) ∈ events (analyse_scanned_pdf env pdf_path) s ->
     (analyse_scanned_pdf env pdf_path s).1 = Raise e)
  /\ (forall req e,
        is_image_call (EvChat req (Raise e)) = true ->
        EvChat req (Raise e) ∈ events (analyze_pdf env pdf_path) s ->
        (analyze_pdf env pdf_path s).1 = Raise e)
  /\ ((exists e, (analyse_scanned_pdf env pdf_path s).1 = Raise e)
      \/ (exists doc ios,
            fitz_open env pdf_path = Ok doc
            /\ Forall2 (fun page io => get_pixmap page 200 = Ok io.1) doc ios
            /\ (forall k io, ios !! k = Some io ->
                  chat_completions_create env (calls s + k)
                    (image_request io.1) = Ok io.2)
            /\ chat_calls (events (analyse_scanned_pdf env pdf_path) s)
               = map (fun io => EvChat (image_request io.1) (Ok io.2)) ios
            /\ (analyse_scanned_pdf env pdf_path s).1 = Ok (vision_summary ios)
            /\ lines_of (vision_summary ios)
               = concat (map (fun io => page_lines io.2) ios)
            /\ Forall2 (fun io ls => lines_from io.2 ls) ios
                 (map (fun io => page_lines io.2) ios))).
Proof.
  split; [|split].
  - intros req e Hin.
    destruct (analyse_scanned_pdf_log env pdf_path s)
      as (evs & Htrace & _ & Hchat & _).
    apply events_of_trace in Htrace. rewrite Htrace in Hin. eauto.
  - intros req e Himg Hin. revert Hin. unfold events.
    assert (forall pre, Forall (fun ev => is_image_call ev = false) pre ->
              EvChat req (Raise e) ∉ pre) as Hnot.
    { intros pre Hpre Hin.
      apply (proj1 (Forall_forall _ _) Hpre) in Hin. congruence. }
    destruct (analyze_pdf_cases env pdf_path s)
      as [(e0 & Hopen & ->)
         |[(doc & r & pre & Hopen & _ & _ & _ & _ & Himgs & ->)
          |(doc & pre & c & Hopen & _ & _ & _ & _ & _ & Himgs & ->)]].
    + cbn [snd emits trace]. rewrite drop_app_length. intros H. elem_cases H.
    + cbn [snd trace]. rewrite drop_app_length. intros Hin.
      by apply Hnot in Hin.
    + set (s2 := mkState (files s) (calls s + c) (trace s ++ pre)).
      destruct (analyse_scanned_pdf_log env pdf_path s2)
        as (evs & Htrace & _ & Hchat & _).
      rewrite Htrace. unfold s2 at 1. cbn [trace].
      rewrite <- app_assoc, drop_app_length. intros Hin.
      apply elem_of_app in Hin as [Hin|Hin]; [by apply Hnot in Hin | eauto].
  - destruct (analyse_scanned_pdf env pdf_path s) as [[r|e] s'] eqn:Hrun.
    + right.
      assert (events (analyse_scanned_pdf env pdf_path) s = drop (length (trace s)) (trace s'))
        as Hev by (unfold events; by rewrite Hrun).
      apply analyse_scanned_pdf_ok in Hrun
        as (doc & ios & Hopen & Hpix & Hchat & _ & Htrace & ->).
      exists doc, ios. split_and!; try done.
      * rewrite Hev, Htrace, drop_app_length.
        apply vision_events_chat_calls.
      * apply vision_summary_lines.
      * apply page_lines_from.
    + left. by exists e.
Qed.

Lemma vision_failure_is_fatal_witness :
  (analyse_scanned_pdf Samples.env_scan_fails Samples.pdf (init ∅)).1
  = Raise Samples.quota.
Proof.
  apply (proj1 (vision_failure_is_fatal Samples.env_scan_fails Samples.pdf
                  (init ∅))
           (image_request Samples.png2)).
  apply list_elem_of_In. vm_compute. tauto.
Defined.

(** C10: every line of a summary of the vision analysis is non-empty
    and has no white space at its head nor at its end; the summary
    neither starts nor ends with a line feed; its lines are those the
    pages contribute, each page the lines of its answer, and a page
    whose answer is empty or all white space contributes none. *)
Theorem vision_lines_stripped env pdf_path s r s' :
  analyse_scanned_pdf env pdf_path s = (Ok r, s') ->
  Forall (fun l => l ≠ []
                   /\ (forall c, head l = Some c -> isspace c = false)
                   /\ (forall c, last l = Some c -> isspace c = false))
         (lines_of r)
  /\ head r ≠ Some LF
  /\ last r ≠ Some LF
  /\ exists doc ios lss,
       fitz_open env pdf_path = Ok doc
       /\ length ios = length doc
       /\ chat_calls (events (analyse_scanned_pdf env pdf_path) s)
          = map (fun io => EvChat (image_request io.1) (Ok io.2)) ios
       /\ lines_of r = concat lss
       /\ Forall2 (fun io ls => lines_from io.2 ls
                                /\ (Forall space io.2 -> ls = [])) ios lss.
Proof.
  intros Hrun. pose proof Hrun as Hok.
  apply analyse_scanned_pdf_ok in Hok
    as (doc & ios & Hopen & Hpix & _ & _ & Htrace & ->).
  pose proof (page_lines_Forall ios) as Hall.
  pose proof (vision_summary_lines ios) as Hlines.
  assert (Forall (fun l => l ≠ [])
            (concat (map (fun io => page_lines io.2) ios))) as Hne.
  { eapply Forall_impl; [exact Hall|]. by intros l (? & _). }
  split; [|split; [|split]].
  - rewrite Hlines. eapply Forall_impl; [exact Hall|].
    intros l (Hl & Hstrip & _). split; [done|]. by apply stripped_ends.
  - unfold vision_summary. rewrite join_head by done.
    destruct (concat (map (fun io => page_lines io.2) ios)) as [|l ls] eqn:E;
      [done|].
    apply Forall_cons in Hall as [(_ & Hl & _) _]. cbn [head mbind option_bind].
    rewrite <- Hl. apply strip_no_LF_ends.
  - unfold vision_summary. rewrite join_last by done.
    destruct (last (concat (map (fun io => page_lines io.2) ios)))
      as [l|] eqn:E; [|done].
    apply last_Some_elem_of in E.
    apply (proj1 (Forall_forall _ _) Hall) in E as (_ & Hl & _).
    cbn [mbind option_bind]. rewrite <- Hl. apply strip_no_LF_ends.
  - exists doc, ios, (map (fun io => page_lines io.2) ios).
    split_and!; try done.
    + symmetry. by eapply Forall2_length.
    + assert (events (analyse_scanned_pdf env pdf_path) s
              = vision_events pdf_path ios) as ->.
      { apply events_of_trace. by rewrite Hrun. }
      apply vision_events_chat_calls.
    + clear. induction ios as [|io ios IH]; constructor; [|exact IH].
      split; [by apply lines_from_page_lines | apply page_lines_blank].
Qed.

Lemma vision_lines_stripped_witness :
  lines_of (lit "1.1.1 A - Supports - x" ++ [LF]
            ++ lit "1.2.1 B - Supports - y")
  = [lit "1.1.1 A - Supports - x"; lit "1.2.1 B - Supports - y"]
  /\ Forall (fun l => l ≠ []
                      /\ (forall c, head l = Some c -> isspace c = false)
                      /\ (forall c, last l = Some c -> isspace c = false))
       (lines_of (lit "1.1.1 A - Supports - x" ++ [LF]
                  ++ lit "1.2.1 B - Supports - y")).
Proof.
  split; [reflexivity|].
  refine (proj1 (vision_lines_stripped Samples.env_scan Samples.pdf (init ∅)
                   _ (analyse_scanned_pdf Samples.env_scan Samples.pdf
                        (init ∅)).2 _)).
  reflexivity.
Defined.

End Vision.

(** ** The fallback from the text analysis *)

Section Fallback.

Implicit Types (env : Env) (s : State) (pdf_path : list N).

(** An interrupt from the keyboard during the request of the text
    analyzer is not an [Exception]: the handler does not catch it,
    [analyze_pdf] fails with it, and no page is rendered. *)
Lemma interrupt_is_propagated :
  (analyse_text_with_chat MoreSamples.env_interrupted
     (document_text [Samples.text_page])
     (emits [EvOpen Samples.pdf; EvClose Samples.pdf] (init ∅))).1
  = Raise MoreSamples.interrupt
  /\ (analyze_pdf MoreSamples.env_interrupted Samples.pdf (init ∅)).1
     = Raise MoreSamples.interrupt
  /\ events (analyze_pdf MoreSamples.env_interrupted Samples.pdf) (init ∅)
     = [EvOpen Samples.pdf; EvClose Samples.pdf;
        EvChat (text_request (document_text [Samples.text_page]))
          (Raise MoreSamples.interrupt)]
  /\ renderings
       (events (analyze_pdf MoreSamples.env_interrupted Samples.pdf) (init ∅))
     = [].
Proof. split_and!; reflexivity. Qed.

(** C2, amended: when the request to the text analyzer raises, the
    outcome depends on the exception.  One that is not an [Exception]
    (an interrupt, an exit) is not caught: [analyze_pdf] fails with
    it.  An [Exception] is caught and printed; when the print itself
    raises, [analyze_pdf] fails with the exception of the print;
    otherwise it carries on as the vision analysis of the same path.
    A run that then returns has rendered every page of the document
    the text came from and has sent one image request per page, in
    page order, each answered by the provider.  The run does return
    when the exception is an [Exception], the print succeeds, the host
    lets the images be staged, every page renders and every later
    image request is answered. *)
Theorem chat_failure_falls_back env pdf_path s doc e s2 :
  fitz_open env pdf_path = Ok doc ->
  50 < length (strip (document_text doc)) ->
  analyse_text_with_chat env (document_text doc)
    (emits [EvOpen pdf_path; EvClose pdf_path] s) = (Raise e, s2) ->
  analyze_pdf env pdf_path s
  = (if is_Exception e then
       match print_error (host env) (fallback_message e) with
       | Some e' => (Raise e', emit (EvPrint (fallback_message e)) s2)
       | None =>
           analyse_scanned_pdf env pdf_path
             (emit (EvPrint (fallback_message e)) s2)
       end
     else (Raise e, s2))
  /\ (forall r s', analyze_pdf env pdf_path s = (Ok r, s') ->
        is_Exception e = true
        /\ print_error (host env) (fallback_message e) = None
        /\ exists ios,
             Forall2 (fun page io => get_pixmap page 200 = Ok io.1) doc ios
             /\ (forall k io, ios !! k = Some io ->
                   chat_completions_create env (S (calls s) + k)
                     (image_request io.1) = Ok io.2)
             /\ events (analyze_pdf env pdf_path) s
                = [EvOpen pdf_path; EvClose pdf_path;
                   EvChat (text_request (document_text doc)) (Raise e);
                   EvPrint (fallback_message e)]
                  ++ vision_events pdf_path ios
             /\ renderings (vision_events pdf_path ios)
                = imap (fun k io => EvPixmap k 200 (Ok io.1)) ios
             /\ chat_calls (vision_events pdf_path ios)
                = map (fun io => EvChat (image_request io.1) (Ok io.2)) ios
             /\ r = vision_summary ios)
  /\ (is_Exception e = true ->
      print_error (host env) (fallback_message e) = None ->
      host_allows_staging (host env) ->
      Forall (fun page => exists png, get_pixmap page 200 = Ok png) doc ->
      (forall n png, calls s < n -> exists content,
         chat_completions_create env n (image_request png) = Ok content) ->
      exists r s', analyze_pdf env pdf_path s = (Ok r, s')).
Proof.
  intros Hopen Hlen Hchat.
  assert (analyze_pdf env pdf_path s
          = (if is_Exception e then
               match print_error (host env) (fallback_message e) with
               | Some e' => (Raise e', emit (EvPrint (fallback_message e)) s2)
               | None =>
                   analyse_scanned_pdf env pdf_path
                     (emit (EvPrint (fallback_message e)) s2)
               end
             else (Raise e, s2))) as Hrun.
  { rewrite analyze_pdf_run, extract_vpat_text_run, Hopen.
    apply Nat.ltb_lt in Hlen. by rewrite Hlen, Hchat. }
  assert (s2 = emit (EvChat (text_request (document_text doc)) (Raise e))
                 (mkState (files s) (S (calls s))
                    (trace s ++ [EvOpen pdf_path; EvClose pdf_path])))
    as Hs2.
  { rewrite analyse_text_with_chat_run in Hchat. cbn zeta in Hchat.
    destruct (chat_completions_create env _ _) as [content|e']; [done|].
    by injection Hchat as -> <-. }
  split; [done|]. split.
  - intros r s' Hret. rewrite Hrun in Hret.
    destruct (is_Exception e); [|done].
    destruct (print_error (host env) (fallback_message e)) as [e'|]; [done|].
    split; [done|]. split; [done|].
    pose proof Hret as Hok.
    apply analyse_scanned_pdf_ok in Hok
      as (doc' & ios & Hopen' & Hpix & Hres & _ & Htrace & ->).
    rewrite Hopen in Hopen'. injection Hopen' as <-.
    exists ios. split_and!; try done.
    + intros k io Hk. rewrite <- (Hres k io Hk). by rewrite Hs2.
    + apply events_of_trace. rewrite Hrun, Hret. cbn [snd]. rewrite Htrace.
      rewrite Hs2. cbn [emit emits trace]. by rewrite <- !app_assoc.
    + apply vision_events_renderings.
    + apply vision_events_chat_calls.
  - intros Hexn Hprint Hhost Hpix Himg. rewrite Hrun, Hexn, Hprint.
    apply (analyse_scanned_pdf_returns env pdf_path doc); [done..|].
    intros n png Hn. apply Himg. revert Hn. rewrite Hs2. simpl. lia.
Qed.

Lemma chat_failure_falls_back_witness :
  exists r s',
    analyze_pdf Samples.env_text_fails Samples.pdf (init ∅) = (Ok r, s').
Proof.
  refine (proj2 (proj2 (chat_failure_falls_back Samples.env_text_fails
                          Samples.pdf (init ∅)
                          [Samples.text_page; Samples.text_page]
                          Samples.quota _ eq_refl _ eq_refl)) _ _ _ _ _).
  - vm_compute. lia.
  - reflexivity.
  - reflexivity.
  - by repeat split.
  - repeat constructor; eexists; reflexivity.
  - intros [|n] png Hn; [simpl in Hn; lia|]. eexists; reflexivity.
Defined.

(** The summary of the text path of [env_text] holds an empty line. *)
Lemma text_summary_has_blank_line :
  ~ (forall r,
       (analyze_pdf Samples.env_text Samples.pdf (init ∅)).1 = Ok r ->
       Forall (fun l => strip l ≠ []) (lines_of r)).
Proof.
  intros H.
  specialize (H _ eq_refl).
  apply (proj1 (Forall_forall _ _)) with (x := []) in H; [done|].
  apply list_elem_of_In. vm_compute. tauto.
Qed.

(** C3, amended: a summary [analyze_pdf] returns without an answer of
    the text analyzer comes from the vision analysis and has no blank
    or whitespace-only line; a summary returned on an answer of the
    text analyzer is that answer stripped at both ends, so that it
    neither starts nor ends with a whitespace character. *)
Theorem summary_blank_lines env pdf_path s r s' :
  analyze_pdf env pdf_path s = (Ok r, s') ->
  ((forall text content,
      EvChat (text_request text) (Ok content)
        ∉ events (analyze_pdf env pdf_path) s) ->
   Forall (fun l => strip l ≠ []) (lines_of r))
  /\ (forall text content,
        EvChat (text_request text) (Ok content)
          ∈ events (analyze_pdf env pdf_path) s ->
        r = strip content
        /\ (forall c, head r = Some c -> isspace c = false)
        /\ (forall c, last r = Some c -> isspace c = false)).
Proof.
  intros Hret.
  assert (forall s0, analyse_scanned_pdf env pdf_path s0 = (Ok r, s') ->
                     Forall (fun l => strip l ≠ []) (lines_of r)) as Hvision.
  { intros s0 Hrun.
    apply analyse_scanned_pdf_ok in Hrun as (_ & ios & _ & _ & _ & _ & _ & ->).
    rewrite vision_summary_lines.
    eapply Forall_impl; [apply page_lines_Forall|].
    simpl. intros l (Hne & Hl & _). by rewrite Hl. }
  assert (forall s0 pre text content,
    analyze_pdf env pdf_path s = analyse_scanned_pdf env pdf_path s0 ->
    trace s0 = trace s ++ pre ->
    EvChat (text_request text) (Ok content) ∉ pre ->
    EvChat (text_request text) (Ok content)
      ∉ events (analyze_pdf env pdf_path) s) as Hnone.
  { intros s0 pre text content Hrun Hpre Hnot Hin.
    destruct (analyse_scanned_pdf_log env pdf_path s0)
      as (evs & Htrace & Hno & _).
    unfold events in Hin.
    rewrite Hrun, Htrace, Hpre, <- app_assoc, drop_app_length in Hin.
    apply elem_of_app in Hin as [Hin|Hin]; [done|].
    apply (proj1 (Forall_forall _ _) Hno) in Hin. done. }
  pose proof (analyze_pdf_run env pdf_path s) as Hrun.
  rewrite extract_vpat_text_run in Hrun.
  destruct (fitz_open env pdf_path) as [doc|e0];
    [|rewrite Hret in Hrun; done].
  set (s1 := emits [EvOpen pdf_path; EvClose pdf_path] s) in *.
  destruct (50 <? length (strip (document_text doc))).
  - rewrite analyse_text_with_chat_run in Hrun. cbn zeta in Hrun.
    destruct (chat_completions_create env (calls s1)
                (text_request (document_text doc))) as [answer|e0].
    + assert (events (analyze_pdf env pdf_path) s
              = [EvOpen pdf_path; EvClose pdf_path;
                 EvChat (text_request (document_text doc)) (Ok answer)])
        as Hev.
      { apply events_of_trace. rewrite Hrun. cbn [snd emit trace].
        unfold s1. cbn [emits trace]. by rewrite <- app_assoc. }
      rewrite Hret in Hrun. injection Hrun as -> _.
      split.
      * intros Hno. exfalso. apply (Hno (document_text doc) answer).
        rewrite Hev. apply list_elem_of_In. simpl. tauto.
      * intros text content Hin. rewrite Hev in Hin.
        elem_cases Hin. injection Hin as _ ->.
        repeat split; [apply strip_head | apply strip_last].
    + destruct (is_Exception e0); [|rewrite Hret in Hrun; done].
      destruct (print_error (host env) (fallback_message e0)) as [e1|];
        [rewrite Hret in Hrun; done|].
      split.
      * intros _. eapply Hvision. by rewrite <- Hrun.
      * intros text content Hin. exfalso. revert Hin.
        eapply Hnone with
          (pre := [EvOpen pdf_path; EvClose pdf_path;
                   EvChat (text_request (document_text doc)) (Raise e0);
                   EvPrint (fallback_message e0)]); [exact Hrun|..].
        -- cbn [emit trace]. unfold s1. cbn [emits trace].
           by rewrite <- !app_assoc.
        -- intros H. elem_cases H.
  - split.
    + intros _. eapply Hvision. by rewrite <- Hrun.
    + intros text content Hin. exfalso. revert Hin.
      eapply Hnone with (pre := [EvOpen pdf_path; EvClose pdf_path]);
        [exact Hrun | done |].
      intros H. elem_cases H.
Qed.

Lemma summary_blank_lines_witness :
  Forall (fun l => strip l ≠ [])
    (lines_of (lit "1.1.1 A - Supports - x" ++ [LF]
               ++ lit "1.2.1 B - Supports - y")).
Proof.
  refine (proj1 (summary_blank_lines Samples.env_scan Samples.pdf (init ∅)
                   _ (analyze_pdf Samples.env_scan Samples.pdf (init ∅)).2 _)
            _).
  - reflexivity.
  - intros text content Hin. apply list_elem_of_In in Hin.
    vm_compute in Hin. intuition discriminate.
Defined.

End Fallback.

(** ** The text extraction *)

Section Extraction.

Implicit Types (env : Env) (s : State) (pdf_path : list N) (doc : list Page).

(** The text of a document with a page is its pages' texts joined by
    line feeds, and one more line feed. *)
Lemma document_text_join doc :
  doc ≠ [] -> document_text doc = join [LF] (map get_text doc) ++ [LF].
Proof.
  induction doc as [|page doc IH]; [done|]. intros _.
  destruct doc as [|page' doc'].
  - unfold document_text. simpl. by rewrite app_nil_r.
  - change (document_text (page :: page' :: doc'))
      with ((get_text page ++ [LF]) ++ document_text (page' :: doc')).
    rewrite IH by done.
    change (join [LF] (map get_text (page :: page' :: doc')))
      with (get_text page ++ [LF] ++ join [LF] (map get_text (page' :: doc'))).
    by rewrite <- !app_assoc.
Qed.

(** The extraction of the one-page document [abc] ends with a line
    feed, which the join of its pages does not have. *)
Lemma extract_vpat_text_trailing_newline :
  (extract_vpat_text Samples.env_abc Samples.pdf (init ∅)).1
  = Ok (lit "abc" ++ [LF])
  /\ (extract_vpat_text Samples.env_abc Samples.pdf (init ∅)).1
     ≠ Ok (join [LF] (map get_text [mkPage (lit "abc") (fun _ => Ok Samples.png1)])).
Proof. split; [reflexivity | discriminate]. Qed.

(** C5, amended: [extract_vpat_text] returns the text of every page,
    in page order, each followed by one line feed: for a document with
    a page, the pages joined by single line feeds and one line feed
    after the last page; the empty string exactly for a document
    without a page. *)
Theorem extract_vpat_text_pages env pdf_path s doc :
  fitz_open env pdf_path = Ok doc ->
  exists text,
    extract_vpat_text env pdf_path s
    = (Ok text, emits [EvOpen pdf_path; EvClose pdf_path] s)
    /\ text = concat (map (fun page => get_text page ++ [LF]) doc)
    /\ (doc ≠ [] -> text = join [LF] (map get_text doc) ++ [LF])
    /\ (text = [] <-> doc = []).
Proof.
  intros Hopen. exists (document_text doc).
  rewrite extract_vpat_text_run, Hopen. repeat split; try done.
  - apply document_text_join.
  - intros Htext. destruct doc as [|page doc]; [done|].
    rewrite document_text_join in Htext by done.
    by apply app_nil in Htext as [_ ?].
  - by intros ->.
Qed.

Lemma extract_vpat_text_pages_witness :
  exists text,
    extract_vpat_text Samples.env_scan Samples.pdf (init ∅)
    = (Ok text, emits [EvOpen Samples.pdf; EvClose Samples.pdf] (init ∅))
    /\ text = concat (map (fun page => get_text page ++ [LF])
                       [Samples.scan1; Samples.scan2])
    /\ ([Samples.scan1; Samples.scan2] ≠ [] ->
        text = join [LF] (map get_text [Samples.scan1; Samples.scan2]) ++ [LF])
    /\ (text = [] <-> [Samples.scan1; Samples.scan2] = []).
Proof.
  apply (extract_vpat_text_pages Samples.env_scan Samples.pdf (init ∅)).
  reflexivity.
Defined.

End Extraction.

(** ** The line formatter *)

Section Formatter.

Implicit Types (l : list N) (ls : list (list N)).

(** Two criteria with an empty and a whitespace-only line between them. *)
Example stripped_lines_drops_blanks :
  stripped_lines
    (lit "1.1.1 Non-text Content - Supports - alt text present"
     ++ [LF; LF; 32; 32; LF]%N
     ++ lit "1.4.3 Contrast - Does Not Support - low contrast")
  = [lit "1.1.1 Non-text Content - Supports - alt text present";
     lit "1.4.3 Contrast - Does Not Support - low contrast"].
Proof. reflexivity. Qed.

(** C6: formatting the join of [n] non-blank lines gives [n] lines,
    the [i]-th of which is the [i]-th input line with the whitespace
    at its two ends removed and nothing else changed; lines that carry
    no whitespace at their ends come out as they went in.  The same
    lines come out when the join is stripped as a whole first, as the
    answer of a page is. *)
Theorem format_round_trip ls :
  Forall (fun l => (LF ∉ l) /\ strip l ≠ []) ls ->
  stripped_lines (join [LF] ls) = map strip ls
  /\ page_lines (join [LF] ls) = map strip ls
  /\ length (stripped_lines (join [LF] ls)) = length ls
  /\ Forall2 (fun l out =>
        exists ws1 ws2,
          Forall space ws1 /\ Forall space ws2 /\ l = ws1 ++ out ++ ws2)
       ls (stripped_lines (join [LF] ls))
  /\ (Forall (fun l => strip l = l) ls -> stripped_lines (join [LF] ls) = ls).
Proof.
  intros H. unfold page_lines.
  rewrite stripped_lines_strip, (stripped_lines_join ls H). repeat split.
  - apply length_map.
  - clear H. induction ls as [|l ls IH]; constructor; [|done].
    apply strip_decomp.
  - clear H. induction 1 as [|l ls Hl _ IH]; [done|].
    simpl. by rewrite Hl, IH.
Qed.

Lemma format_round_trip_witness :
  stripped_lines
    (join [LF] [lit "1.1.1 A - Supports - x"; lit "  1.4.3 B - Supports - y "])
  = [lit "1.1.1 A - Supports - x"; lit "1.4.3 B - Supports - y"].
Proof.
  refine (proj1 (format_round_trip
            [lit "1.1.1 A - Supports - x"; lit "  1.4.3 B - Supports - y "] _)).
  repeat constructor; vm_compute; try discriminate.
  all: intros Hin; apply list_elem_of_In in Hin; vm_compute in Hin;
    intuition discriminate.
Defined.

End Formatter.

(** ** The scratch files and the account of a run *)

Section Scratch.

Implicit Types (env : Env) (h : Host) (s : State) (pdf_path path id : list N)
  (doc : list Page) (ios : list (list Byte.byte * list N)) (st : stop)
  (fs : gmap (list N) (list Byte.byte)).



Lemma page_image_path_head (i : nat) : head (page_image_path i) = Some 105%N.
Proof. reflexivity. Qed.

(** Staging leaves alone every file that no staged path names. *)
Lemma staged_lookup_other h ios : forall i fs id,
  (forall k, i <= k < i + length ios -> id ≠ locate h (page_image_path k)) ->
  staged h i ios fs !! id = fs !! id.
Proof.
  induction ios as [|[png content] ios IH]; intros i fs id Hid; [done|].
  cbn [staged]. rewrite IH.
  - apply lookup_insert_ne. intros Heq. apply (Hid i); [simpl; lia | done].
  - intros k Hk. apply Hid. simpl. lia.
Qed.

(** After staging, the file the path of a page names holds the image
    of that page, unless the path of a later page names the same
    file. *)
Lemma staged_lookup h ios : forall i fs k io,
  ios !! k = Some io ->
  (forall j, k < j < length ios ->
     locate h (page_image_path (i + j)) ≠ locate h (page_image_path (i + k))) ->
  staged h i ios fs !! locate h (page_image_path (i + k)) = Some io.1.
Proof.
  induction ios as [|[png content] ios IH]; intros i fs k io Hk Hlater;
    [done|].
  cbn [staged]. destruct k as [|k].
  - injection Hk as <-. rewrite Nat.add_0_r, staged_lookup_other.
    + apply lookup_insert_eq.
    + intros k Hk Heq. rewrite Nat.add_0_r in Hlater.
      apply (Hlater (k - i)); [simpl; lia|].
      replace (i + (k - i)) with k by lia. done.
  - replace (i + S k) with (S i + k) by lia. apply IH; [done|].
    intros j Hj. replace (S i + j) with (i + S j) by lia.
    replace (S i + k) with (i + S k) by lia. apply Hlater. simpl. lia.
Qed.

Lemma stop_events_counts i st :
  length (renderings (stop_events i st))
  = match st with Completed => 0 | _ => 1 end
  /\ length (chat_calls (stop_events i st)) = stop_calls st.
Proof. by destruct st. Qed.

Lemma scan_events_chat_count ios i :
  length (chat_calls (scan_events i ios)) = length ios.
Proof. by rewrite scan_events_chat_calls, length_map. Qed.

Lemma scan_events_render_count ios i :
  length (renderings (scan_events i ios)) = length ios.
Proof. by rewrite scan_events_renderings, length_imap. Qed.

Lemma stops_at_lt env doc (n j c : nat) st :
  stops_at env doc n j c st -> st ≠ Completed -> n < length doc.
Proof.
  destruct st as [|e|png e|png e|png e]; [done|..];
    intros (page & Hpage & _) _; by eapply lookup_lt_Some.
Qed.

(** The account of a vision analysis, whatever its outcome: what it
    logs, which files may differ, how many requests it spends, and
    what it opens and closes. *)
Lemma analyse_scanned_pdf_account env pdf_path s :
  exists evs fs' c',
    (analyse_scanned_pdf env pdf_path s).2
    = mkState fs' (calls s + c') (trace s ++ evs)
    /\ (forall id, (forall k, id ≠ locate (host env) (page_image_path k)) ->
          fs' !! id = files s !! id)
    /\ (forall doc, fitz_open env pdf_path = Ok doc -> c' <= length doc)
    /\ length (chat_calls evs) = c'
    /\ opens evs = 1
    /\ closes evs = match fitz_open env pdf_path with Ok _ => 1 | Raise _ => 0 end
    /\ Forall (fun ev => is_text_call ev = false) evs.
Proof.
  destruct (fitz_open env pdf_path) as [doc|e] eqn:Hopen.
  - destruct (analyse_scanned_pdf_ends env pdf_path s doc Hopen)
      as [(e & _ & ->)|(_ & ios & st & Hlen & _ & Hstop & ->)].
    { exists [EvOpen pdf_path; EvMakedirs (lit "images"); EvClose pdf_path],
        (files s), 0.
      split_and!; try done.
      - unfold emits. cbn [snd]. by rewrite Nat.add_0_r.
      - intros doc' _. lia.
      - by repeat constructor. }
    pose proof (scan_events_inner ios 0) as Hscan.
    pose proof (stop_events_inner (length ios) st) as Hst.
    exists ([EvOpen pdf_path; EvMakedirs (lit "images")]
            ++ scan_events 0 ios ++ stop_events (length ios) st
            ++ [EvClose pdf_path]),
      (stop_files (host env) (length ios) st
         (staged (host env) 0 ios (files s))),
      (length ios + stop_calls st).
    split_and!.
    + cbn [snd]. f_equal. lia.
    + intros id Hid.
      assert (staged (host env) 0 ios (files s) !! id = files s !! id)
        as Hstaged.
      { apply staged_lookup_other. intros k _. apply Hid. }
      destruct st; cbn [stop_files]; try done;
        (rewrite lookup_insert_ne; [done|]); intros Heq;
        by apply (Hid (length ios)).
    + intros doc' [= <-].
      destruct st as [|e|png e|png e|png e]; cbn [stop_calls]; [lia..|].
      assert (length ios < length doc); [|lia].
      by eapply stops_at_lt.
    + unfold chat_calls. rewrite !count_app.
      fold (chat_calls (scan_events 0 ios)).
      fold (chat_calls (stop_events (length ios) st)).
      rewrite scan_events_chat_count.
      rewrite (proj2 (stop_events_counts (length ios) st)). simpl. lia.
    + unfold opens. rewrite !count_app.
      rewrite (count_none is_open (scan_events 0 ios)),
        (count_none is_open (stop_events (length ios) st)); [done|..].
      * eapply Forall_impl; [exact Hst|]. by intros ev (? & _).
      * eapply Forall_impl; [exact Hscan|]. by intros ev (? & _).
    + unfold closes. rewrite !count_app.
      rewrite (count_none is_close (scan_events 0 ios)),
        (count_none is_close (stop_events (length ios) st)); [done|..].
      * eapply Forall_impl; [exact Hst|]. by intros ev (_ & ? & _).
      * eapply Forall_impl; [exact Hscan|]. by intros ev (_ & ? & _).
    + apply Forall_app. split; [by repeat constructor|].
      apply Forall_app. split.
      { eapply Forall_impl; [exact Hscan|]. by intros ev (_ & _ & ?). }
      apply Forall_app. split; [|by repeat constructor].
      eapply Forall_impl; [exact Hst|]. by intros ev (_ & _ & ?).
  - rewrite analyse_scanned_pdf_run, Hopen.
    exists [EvOpen pdf_path], (files s), 0. split_and!; try done.
    + unfold emit. cbn [snd]. by rewrite Nat.add_0_r.
    + by repeat constructor.
Qed.

(** The events [analyze_pdf] logs, from the account of the vision
    analysis it hands over to. *)
Lemma analyze_pdf_fallback_account env pdf_path s doc pre c :
  fitz_open env pdf_path = Ok doc ->
  analyze_pdf env pdf_path s
  = analyse_scanned_pdf env pdf_path
      (mkState (files s) (calls s + c) (trace s ++ pre)) ->
  exists evs fs' c',
    (analyze_pdf env pdf_path s).2
    = mkState fs' (calls s + c + c') (trace s ++ pre ++ evs)
    /\ events (analyze_pdf env pdf_path) s = pre ++ evs
    /\ (forall id, (forall k, id ≠ locate (host env) (page_image_path k)) ->
          fs' !! id = files s !! id)
    /\ c' <= length doc
    /\ length (chat_calls evs) = c'
    /\ opens evs = 1 /\ closes evs = 1
    /\ Forall (fun ev => is_text_call ev = false) evs.
Proof.
  intros Hopen Hrun.
  destruct (analyse_scanned_pdf_account env pdf_path
              (mkState (files s) (calls s + c) (trace s ++ pre)))
    as (evs & fs' & c' & Hst & Hframe & Hbudget & Hchat & Hopens & Hcloses
        & Hno).
  rewrite Hopen in Hcloses. cbn [files calls trace] in *.
  exists evs, fs', c'.
  assert ((analyze_pdf env pdf_path s).2
          = mkState fs' (calls s + c + c') (trace s ++ pre ++ evs)) as Hfin.
  { rewrite Hrun, Hst. by rewrite <- app_assoc. }
  split_and!; try done.
  - apply events_of_trace. by rewrite Hfin.
  - by apply Hbudget.
Qed.

(** Whatever its outcome, [analyze_pdf] leaves alone every file that
    the scratch path of no page names. *)
Lemma analyze_pdf_frame env pdf_path s id :
  (forall k, id ≠ locate (host env) (page_image_path k)) ->
  files (analyze_pdf env pdf_path s).2 !! id = files s !! id.
Proof.
  intros Hid.
  destruct (analyze_pdf_cases env pdf_path s)
    as [(e0 & _ & ->)
       |[(doc & r & pre & _ & _ & _ & _ & _ & _ & ->)
        |(doc & pre & c & Hopen & _ & _ & _ & _ & _ & _ & Hrun)]];
    [done..|].
  destruct (analyze_pdf_fallback_account env pdf_path s doc pre c Hopen Hrun)
    as (evs & fs' & c' & -> & _ & Hframe & _).
  by apply Hframe.
Qed.

End Scratch.

(** ** Further behaviour of the vision analysis *)

Section VisionRuns.

Implicit Types (env : Env) (s : State) (pdf_path path id : list N)
  (doc : list Page) (ios : list (list Byte.byte * list N)) (st : stop).

(** X1: when the vision analysis of a document that opens fails,
    either the scratch directory could not be made, and then no page
    was touched; or the pages before the failing one were rendered,
    staged, read back and answered in order, the failing page is the
    last one touched (its rendering raised, or its save, or the read
    of its image, or its request), the exception of that call is the
    outcome, and no later page is rendered or submitted.  The document
    is closed either way. *)
Theorem vision_stops_at_first_failure env pdf_path s doc e s' :
  fitz_open env pdf_path = Ok doc ->
  analyse_scanned_pdf env pdf_path s = (Raise e, s') ->
  (makedirs_error (host env) (lit "images") = Some e
   /\ events (analyse_scanned_pdf env pdf_path) s
      = [EvOpen pdf_path; EvMakedirs (lit "images"); EvClose pdf_path])
  \/ (makedirs_error (host env) (lit "images") = None
      /\ exists ios st,
           length ios < length doc
           /\ Forall2 (fun page io => get_pixmap page 200 = Ok io.1)
                (take (length ios) doc) ios
           /\ (forall k io, ios !! k = Some io ->
                 exists page,
                   doc !! k = Some page
                   /\ page_passes env k (calls s + k) page io)
           /\ stops_at env doc (length ios) (length ios)
                (calls s + length ios) st
           /\ stop_error st = Some e
           /\ events (analyse_scanned_pdf env pdf_path) s
              = [EvOpen pdf_path; EvMakedirs (lit "images")]
                ++ scan_events 0 ios ++ stop_events (length ios) st
                ++ [EvClose pdf_path]
           /\ length (renderings (events (analyse_scanned_pdf env pdf_path) s))
              = length ios + 1
           /\ length (chat_calls (events (analyse_scanned_pdf env pdf_path) s))
              = length ios + stop_calls st).
Proof.
  intros Hopen Hrun.
  destruct (analyse_scanned_pdf_ends env pdf_path s doc Hopen)
    as [(e0 & Hmk & Heq)|(Hmk & ios & st & Hlen & Hpass & Hstop & Heq)].
  { left. rewrite Heq in Hrun. injection Hrun as -> _. split; [done|].
    apply events_of_trace. by rewrite Heq. }
  right. split; [done|].
  assert (events (analyse_scanned_pdf env pdf_path) s
          = [EvOpen pdf_path; EvMakedirs (lit "images")]
            ++ scan_events 0 ios ++ stop_events (length ios) st
            ++ [EvClose pdf_path]) as Hev.
  { apply events_of_trace. by rewrite Heq. }
  rewrite Heq in Hrun. injection Hrun as Hres _.
  assert (stop_error st = Some e) as Herr.
  { unfold stop_summary in Hres. destruct (stop_error st); congruence. }
  assert (st ≠ Completed) as Hst by (by intros ->).
  assert (length ios < length doc) as Hlt by (by eapply stops_at_lt).
  exists ios, st. rewrite Hev. split_and!; try done.
  - apply Forall2_same_length_lookup_2.
    + rewrite length_take. lia.
    + intros k page io Hpage Hio.
      destruct (Hpass k io Hio) as (page' & Hpage' & Hpix & _).
      apply lookup_take_Some in Hpage as [Hpage _].
      rewrite Hpage in Hpage'. by injection Hpage' as <-.
  - unfold renderings. rewrite !count_app.
    fold (renderings (scan_events 0 ios)).
    fold (renderings (stop_events (length ios) st)).
    rewrite scan_events_render_count.
    rewrite (proj1 (stop_events_counts (length ios) st)).
    destruct st; [done|simpl; lia..].
  - unfold chat_calls. rewrite !count_app.
    fold (chat_calls (scan_events 0 ios)).
    fold (chat_calls (stop_events (length ios) st)).
    rewrite scan_events_chat_count.
    rewrite (proj2 (stop_events_counts (length ios) st)). simpl. lia.
Qed.

Lemma vision_stops_at_first_failure_witness :
  exists ios st,
    length ios < length MoreSamples.unrenderable
    /\ stop_error st = Some MoreSamples.render_error
    /\ length (renderings
                 (events (analyse_scanned_pdf MoreSamples.env_render_fails
                            Samples.pdf) (init ∅)))
       = length ios + 1.
Proof.
  assert (analyse_scanned_pdf MoreSamples.env_render_fails Samples.pdf (init ∅)
          = (Raise MoreSamples.render_error,
             (analyse_scanned_pdf MoreSamples.env_render_fails Samples.pdf
                (init ∅)).2)) as Hrun by reflexivity.
  destruct (vision_stops_at_first_failure MoreSamples.env_render_fails
              Samples.pdf (init ∅) MoreSamples.unrenderable
              MoreSamples.render_error _ eq_refl Hrun)
    as [(Hmk & _)
       |(_ & ios & st & Hlen & _ & _ & _ & Herr & _ & Hrender & _)].
  - discriminate Hmk.
  - exists ios, st. split; [exact Hlen|]. split; [exact Herr | exact Hrender].
Defined.

(** X2: a rendering that raises makes [analyze_pdf] fail with the
    exception of the rendering: nothing catches it on the vision path. *)
Theorem render_failure_is_fatal env pdf_path s k dpi e :
  EvPixmap k dpi (Raise e) ∈ events (analyze_pdf env pdf_path) s ->
  (analyze_pdf env pdf_path s).1 = Raise e.
Proof.
  destruct (analyze_pdf_cases env pdf_path s)
    as [(e0 & _ & Hrun)
       |[(doc & r & pre & _ & _ & _ & _ & Hpre & _ & Hrun)
        |(doc & pre & c & _ & _ & _ & _ & _ & Hpre & _ & Hrun)]].
  - unfold events. rewrite Hrun. cbn [snd emits trace].
    rewrite drop_app_length. intros H. elem_cases H.
  - unfold events. rewrite Hrun. cbn [snd trace].
    rewrite drop_app_length. intros H.
    apply (proj1 (Forall_forall _ _) Hpre) in H. done.
  - unfold events. rewrite Hrun.
    destruct (analyse_scanned_pdf_log env pdf_path
                (mkState (files s) (calls s + c) (trace s ++ pre)))
      as (evs & Htrace & _ & _ & Hpix).
    rewrite Htrace. cbn [trace]. rewrite <- app_assoc, drop_app_length.
    intros H. apply elem_of_app in H as [H|H]; [|by eapply Hpix].
    apply (proj1 (Forall_forall _ _) Hpre) in H. done.
Qed.

Lemma render_failure_is_fatal_witness :
  (analyze_pdf MoreSamples.env_render_fails Samples.pdf (init ∅)).1
  = Raise MoreSamples.render_error.
Proof.
  apply (render_failure_is_fatal MoreSamples.env_render_fails Samples.pdf
           (init ∅) 1 200).
  apply list_elem_of_In. vm_compute. tauto.
Defined.

(** X3: whatever the outcome, [analyze_pdf] closes every document it
    has opened, and the vision analysis and the extraction each end by
    closing theirs. *)
Theorem documents_are_closed env pdf_path s doc :
  fitz_open env pdf_path = Ok doc ->
  opens (events (analyze_pdf env pdf_path) s)
  = closes (events (analyze_pdf env pdf_path) s)
  /\ last (events (analyse_scanned_pdf env pdf_path) s)
     = Some (EvClose pdf_path)
  /\ last (events (extract_vpat_text env pdf_path) s)
     = Some (EvClose pdf_path).
Proof.
  intros Hopen. split_and!.
  - destruct (analyze_pdf_cases env pdf_path s)
      as [(e0 & Hfail & _)
         |[(doc' & r & pre & _ & _ & Hop & Hcl & _ & _ & Hrun)
          |(doc' & pre & c & _ & _ & _ & Hop & Hcl & _ & _ & Hrun)]].
    + by rewrite Hopen in Hfail.
    + unfold events. rewrite Hrun. cbn [snd trace].
      rewrite drop_app_length. lia.
    + destruct (analyze_pdf_fallback_account env pdf_path s doc pre c Hopen Hrun)
        as (evs & fs' & c' & _ & -> & _ & _ & _ & Hop' & Hcl' & _).
      unfold opens, closes in *. rewrite !count_app. lia.
  - destruct (analyse_scanned_pdf_ends env pdf_path s doc Hopen)
      as [(e & _ & Heq)|(_ & ios & st & _ & _ & _ & Heq)].
    + erewrite events_of_trace; [|by rewrite Heq]. done.
    + erewrite events_of_trace; [|by rewrite Heq].
      by rewrite !app_assoc, last_snoc.
  - erewrite events_of_trace;
      [|by rewrite extract_vpat_text_run, Hopen].
    done.
Qed.

Lemma documents_are_closed_witness :
  opens (events (analyze_pdf Samples.env_scan_fails Samples.pdf) (init ∅))
  = closes (events (analyze_pdf Samples.env_scan_fails Samples.pdf) (init ∅))
  /\ last (events (analyse_scanned_pdf Samples.env_scan_fails Samples.pdf)
             (init ∅))
     = Some (EvClose Samples.pdf)
  /\ last (events (extract_vpat_text Samples.env_scan_fails Samples.pdf)
             (init ∅))
     = Some (EvClose Samples.pdf).
Proof.
  apply (documents_are_closed Samples.env_scan_fails Samples.pdf (init ∅)
           [Samples.scan1; Samples.scan2]).
  reflexivity.
Defined.

(** X4: after a vision analysis that returns, the file that the
    scratch path of a page names holds the image of that page,
    whatever it held before, unless the scratch path of a later page
    names the same file; and every file that the scratch path of no
    page of the document names is as it was.  Files are told apart by
    what the host makes of their paths, not by the spelling of the
    paths. *)
Theorem staged_files_after_vision env pdf_path s r s' :
  analyse_scanned_pdf env pdf_path s = (Ok r, s') ->
  exists ios,
    chat_calls (events (analyse_scanned_pdf env pdf_path) s)
    = map (fun io => EvChat (image_request io.1) (Ok io.2)) ios
    /\ (forall k io, ios !! k = Some io ->
          (forall j, k < j < length ios ->
             locate (host env) (page_image_path j)
             ≠ locate (host env) (page_image_path k)) ->
          files s' !! locate (host env) (page_image_path k) = Some io.1)
    /\ (forall id,
          (forall k, k < length ios ->
             id ≠ locate (host env) (page_image_path k)) ->
          files s' !! id = files s !! id).
Proof.
  intros Hrun.
  assert (events (analyse_scanned_pdf env pdf_path) s
          = drop (length (trace s)) (trace s')) as Hev.
  { unfold events. by rewrite Hrun. }
  apply analyse_scanned_pdf_completed in Hrun
    as (doc & ios & _ & _ & _ & _ & -> & _).
  cbn [files trace] in *.
  exists ios. split_and!.
  - rewrite Hev, drop_app_length. apply vision_events_chat_calls.
  - intros k io Hk Hlater. by apply (staged_lookup (host env) ios 0).
  - intros id Hid. apply staged_lookup_other.
    intros k Hk. apply Hid. lia.
Qed.

Lemma staged_files_after_vision_witness :
  exists ios,
    chat_calls (events (analyse_scanned_pdf Samples.env_scan Samples.pdf)
                  (init {[ page_image_path 0 := [Byte.x00] ]}))
    = map (fun io => EvChat (image_request io.1) (Ok io.2)) ios
    /\ (forall id,
          (forall k, k < length ios ->
             id ≠ locate (host Samples.env_scan) (page_image_path k)) ->
          files (analyse_scanned_pdf Samples.env_scan Samples.pdf
                   (init {[ page_image_path 0 := [Byte.x00] ]})).2 !! id
          = files (init {[ page_image_path 0 := [Byte.x00] ]}) !! id).
Proof.
  destruct (staged_files_after_vision Samples.env_scan Samples.pdf
              (init {[ page_image_path 0 := [Byte.x00] ]})
              (lit "1.1.1 A - Supports - x" ++ [LF]
               ++ lit "1.2.1 B - Supports - y")
              (analyse_scanned_pdf Samples.env_scan Samples.pdf
                 (init {[ page_image_path 0 := [Byte.x00] ]})).2)
    as (ios & Hchat & _ & Hframe).
  - reflexivity.
  - exists ios. split; [exact Hchat | exact Hframe].
Defined.



(** X6: whatever its outcome, [analyze_pdf] changes no file but those
    the scratch paths of pages name, as the host resolves these
    paths. *)
Theorem store_changes_only_at_page_images env pdf_path s id :
  (forall k, id ≠ locate (host env) (page_image_path k)) ->
  files (analyze_pdf env pdf_path s).2 !! id = files s !! id.
Proof. apply analyze_pdf_frame. Qed.

Lemma store_changes_only_at_page_images_witness :
  files (analyze_pdf Samples.env_scan Samples.pdf
           (init {[ lit "uploads/report.pdf" := [Byte.x25] ]})).2
    !! lit "uploads/report.pdf"
  = Some [Byte.x25].
Proof.
  rewrite (store_changes_only_at_page_images Samples.env_scan Samples.pdf
             (init {[ lit "uploads/report.pdf" := [Byte.x25] ]})
             (lit "uploads/report.pdf")).
  - reflexivity.
  - intros k Heq. apply (f_equal head) in Heq. discriminate Heq.
Defined.

(** X7: [analyze_pdf] on a document that opens spends at most one
    request more than the document has pages, and the requests it
    logs are the requests it spends. *)
Theorem request_budget env pdf_path s doc :
  fitz_open env pdf_path = Ok doc ->
  calls s <= calls (analyze_pdf env pdf_path s).2
  /\ calls (analyze_pdf env pdf_path s).2 <= calls s + 1 + length doc
  /\ length (chat_calls (events (analyze_pdf env pdf_path) s))
     = calls (analyze_pdf env pdf_path s).2 - calls s.
Proof.
  intros Hopen.
  destruct (analyze_pdf_cases env pdf_path s)
    as [(e0 & Hfail & _)
       |[(doc' & r & pre & _ & Hpre & _ & _ & _ & _ & Hrun)
        |(doc' & pre & c & _ & Hc & Hpre & _ & _ & _ & _ & Hrun)]].
  - by rewrite Hopen in Hfail.
  - unfold events. rewrite Hrun. cbn [snd calls trace].
    rewrite drop_app_length. lia.
  - destruct (analyze_pdf_fallback_account env pdf_path s doc pre c Hopen Hrun)
      as (evs & fs' & c' & -> & -> & _ & Hc' & Hchat & _).
    cbn [calls]. unfold chat_calls in *. rewrite count_app. lia.
Qed.

Lemma request_budget_witness :
  calls (analyze_pdf Samples.env_text_fails Samples.pdf (init ∅)).2 <= 0 + 1 + 2
  /\ length (chat_calls
                (events (analyze_pdf Samples.env_text_fails Samples.pdf)
                   (init ∅)))
     = calls (analyze_pdf Samples.env_text_fails Samples.pdf (init ∅)).2 - 0.
Proof.
  exact (proj2 (request_budget Samples.env_text_fails Samples.pdf (init ∅)
                  [Samples.text_page; Samples.text_page] eq_refl)).
Defined.

End VisionRuns.

(** ** Further behaviour of the triage and of the formatter *)

Section TextRuns.

Implicit Types (env : Env) (s : State) (pdf_path : list N)
  (doc : list Page) (l : list N) (ls : list (list N)).

Lemma document_text_spaces doc :
  Forall (fun page => Forall space (get_text page)) doc ->
  Forall space (document_text doc).
Proof.
  intros H. unfold document_text. apply Forall_concat, Forall_map.
  eapply Forall_impl; [exact H|]. simpl. intros page Hpage.
  apply Forall_app. split; [done|]. by repeat constructor.
Qed.

(** X8: a document whose pages hold nothing but whitespace is treated
    as scanned, however long its text: the text analyzer is not asked
    and the run is that of the vision analysis. *)
Theorem whitespace_text_is_scanned env pdf_path s doc :
  fitz_open env pdf_path = Ok doc ->
  Forall (fun page => Forall space (get_text page)) doc ->
  analyze_pdf env pdf_path s
  = analyse_scanned_pdf env pdf_path
      (emits [EvOpen pdf_path; EvClose pdf_path] s)
  /\ text_calls (events (analyze_pdf env pdf_path) s) = 0.
Proof.
  intros Hopen Hblank.
  assert (analyze_pdf env pdf_path s
          = analyse_scanned_pdf env pdf_path
              (emits [EvOpen pdf_path; EvClose pdf_path] s)) as Hrun.
  { rewrite analyze_pdf_run, extract_vpat_text_run, Hopen.
    by rewrite (strip_spaces _ (document_text_spaces doc Hblank)). }
  split; [done|].
  destruct (analyse_scanned_pdf_account env pdf_path
              (emits [EvOpen pdf_path; EvClose pdf_path] s))
    as (evs & fs' & c' & Hst & _ & _ & _ & _ & _ & Hno).
  erewrite events_of_trace.
  2:{ rewrite Hrun, Hst. cbn [emits trace]. by rewrite <- app_assoc. }
  by rewrite text_calls_app, (text_calls_none evs Hno).
Qed.

Lemma whitespace_text_is_scanned_witness :
  80 < length (document_text [mkPage (replicate 80 32%N) (fun _ => Ok Samples.png1)])
  /\ text_calls (events (analyze_pdf MoreSamples.env_blank_text Samples.pdf)
                  (init ∅)) = 0.
Proof.
  split; [vm_compute; lia|].
  refine (proj2 (whitespace_text_is_scanned MoreSamples.env_blank_text
                   Samples.pdf (init ∅) _ eq_refl _)).
  repeat constructor.
Defined.

(** X9: when the text is long enough and the text analyzer answers,
    [analyze_pdf] returns the answer stripped at its two ends, the
    empty string exactly for an answer of whitespace only; the document
    was opened once, one request was spent, and no page was rendered
    and no file written. *)
Theorem text_answer_is_returned env pdf_path s doc content :
  fitz_open env pdf_path = Ok doc ->
  50 < length (strip (document_text doc)) ->
  chat_completions_create env (calls s) (text_request (document_text doc))
  = Ok content ->
  analyze_pdf env pdf_path s
  = (Ok (strip content),
     mkState (files s) (S (calls s))
       (trace s ++ [EvOpen pdf_path; EvClose pdf_path;
                    EvChat (text_request (document_text doc)) (Ok content)]))
  /\ (strip content = [] <-> Forall space content)
  /\ renderings (events (analyze_pdf env pdf_path) s) = [].
Proof.
  intros Hopen Hlen Hres.
  assert (analyze_pdf env pdf_path s
          = (Ok (strip content),
             mkState (files s) (S (calls s))
               (trace s ++ [EvOpen pdf_path; EvClose pdf_path;
                            EvChat (text_request (document_text doc))
                              (Ok content)]))) as Hrun.
  { rewrite analyze_pdf_run, extract_vpat_text_run, Hopen.
    apply Nat.ltb_lt in Hlen. rewrite Hlen.
    rewrite analyse_text_with_chat_run. cbn zeta. cbn [emits calls].
    rewrite Hres. unfold emit, emits. cbn [files calls trace].
    by rewrite <- app_assoc. }
  split_and!; [done | apply strip_nil_iff |].
  erewrite events_of_trace; [|by rewrite Hrun]. reflexivity.
Qed.

Lemma text_answer_is_returned_witness :
  (analyze_pdf Samples.env_text Samples.pdf (init ∅)).1
  = Ok (lit "1.1.1 A - Supports - x" ++ [LF; LF]
        ++ lit "1.4.3 B - Supports - y")
  /\ renderings (events (analyze_pdf Samples.env_text Samples.pdf) (init ∅))
     = [].
Proof.
  assert (50 < length (strip (document_text [Samples.text_page]))) as Hlen
    by (vm_compute; lia).
  destruct (text_answer_is_returned Samples.env_text Samples.pdf (init ∅)
              [Samples.text_page] _ eq_refl Hlen eq_refl)
    as (Hrun & _ & Hrender).
  split; [by rewrite Hrun | exact Hrender].
Defined.

Lemma split_app_sep_all (sep : N) l (t : list N) :
  split sep (l ++ sep :: t) = split sep l ++ split sep t.
Proof.
  induction l as [|c l IH]; simpl.
  - by rewrite N.eqb_refl.
  - destruct (c =? sep)%N; rewrite IH; [done|].
    pose proof (split_not_nil sep l). by destruct (split sep l).
Qed.

Lemma stripped_lines_app_LF l (t : list N) :
  stripped_lines (l ++ LF :: t) = stripped_lines l ++ stripped_lines t.
Proof.
  unfold stripped_lines. by rewrite split_app_sep_all, filter_app, map_app.
Qed.

Lemma stripped_lines_join_all ls :
  stripped_lines (join [LF] ls) = concat (map stripped_lines ls).
Proof.
  induction ls as [|l ls IH]; [done|].
  destruct ls as [|l' ls'].
  - simpl. by rewrite app_nil_r.
  - change (join [LF] (l :: l' :: ls')) with (l ++ LF :: join [LF] (l' :: ls')).
    rewrite stripped_lines_app_LF, IH. reflexivity.
Qed.

(** Lines that are non-empty, stripped and free of line feeds come
    back from the formatter as they are. *)
Lemma stripped_lines_join_fixed ls :
  Forall (fun l => l ≠ [] /\ strip l = l /\ (LF ∉ l)) ls ->
  stripped_lines (join [LF] ls) = ls.
Proof.
  intros H. rewrite stripped_lines_join.
  - induction H as [|l ls (_ & Hl & _) _ IH]; [done|].
    simpl. by rewrite Hl, IH.
  - eapply Forall_impl; [exact H|].
    simpl. intros l (Hne & Hl & Hlf). split; [done|]. by rewrite Hl.
Qed.

(** X10: the line formatter is idempotent: joining the lines it gives
    and formatting them again gives the same lines. *)
Theorem formatter_idempotent (result : list N) :
  stripped_lines (join [LF] (stripped_lines result)) = stripped_lines result.
Proof. apply stripped_lines_join_fixed, stripped_lines_Forall. Qed.

(** X11: collecting the lines page by page gives the lines of all the
    answers taken as one text, joined by line feeds: a line never runs
    over from one page into the next, and the summary of a vision
    analysis that returns formats to its own lines. *)
Theorem vision_summary_as_one_text env pdf_path s r s' :
  analyse_scanned_pdf env pdf_path s = (Ok r, s') ->
  exists ios,
    chat_calls (events (analyse_scanned_pdf env pdf_path) s)
    = map (fun io => EvChat (image_request io.1) (Ok io.2)) ios
    /\ lines_of r = stripped_lines (join [LF] (map snd ios))
    /\ stripped_lines r = lines_of r.
Proof.
  intros Hrun. pose proof Hrun as Hok.
  apply analyse_scanned_pdf_ok in Hok
    as (doc & ios & _ & _ & _ & _ & Htrace & ->).
  exists ios. split_and!.
  - erewrite events_of_trace; [|by rewrite Hrun].
    apply vision_events_chat_calls.
  - rewrite vision_summary_lines, stripped_lines_join_all, map_map.
    f_equal. apply map_ext. intros io. unfold page_lines.
    apply stripped_lines_strip.
  - rewrite vision_summary_lines. unfold vision_summary.
    apply stripped_lines_join_fixed, page_lines_Forall.
Qed.

Lemma vision_summary_as_one_text_witness :
  stripped_lines (lit "1.1.1 A - Supports - x" ++ [LF]
                  ++ lit "1.2.1 B - Supports - y")
  = lines_of (lit "1.1.1 A - Supports - x" ++ [LF]
              ++ lit "1.2.1 B - Supports - y").
Proof.
  destruct (vision_summary_as_one_text Samples.env_scan Samples.pdf (init ∅)
              (lit "1.1.1 A - Supports - x" ++ [LF]
               ++ lit "1.2.1 B - Supports - y")
              (analyse_scanned_pdf Samples.env_scan Samples.pdf (init ∅)).2)
    as (ios & _ & _ & Hfix).
  - reflexivity.
  - exact Hfix.
Defined.

End TextRuns.

(** ** The upload endpoint *)

Section Upload.

Implicit Types (srv : App.Server) (s : State) (file : App.FileStorage)
  (request_files : list (list N * App.FileStorage)).

(** Where an upload named [name] is saved. *)
Lemma os_path_join_uploads (name : list N) :
  App.os_path_join App.UPLOAD_FOLDER name
  = if bool_decide (head name = Some App.SLASH) then name
    else lit "uploads/" ++ name.
Proof. unfold App.os_path_join. by case_bool_decide. Qed.

(** No upload is saved at a path spelled as the scratch path of a
    page. *)
Lemma upload_path_not_page_image (name : list N) (k : nat) :
  App.os_path_join App.UPLOAD_FOLDER name ≠ page_image_path k.
Proof.
  rewrite os_path_join_uploads. intros Heq. apply (f_equal head) in Heq.
  rewrite page_image_path_head in Heq.
  case_bool_decide as Hhead; [by rewrite Hhead in Heq | done].
Qed.

(** The state after the upload has been saved. *)
Lemma file_save_run srv file (filepath : list N) s :
  App.save_error srv filepath = None ->
  App.file_save srv file filepath s
  = (Ok tt, mkState (<[App.locate srv filepath := App.stream file]> (files s))
              (calls s) (trace s ++ [EvSave filepath (App.stream file)])).
Proof. intros Hsave. unfold App.file_save. by rewrite Hsave. Qed.

(** The view, past its two guards and the save. *)
Lemma analyze_run srv request_files s file :
  App.files_get (lit "file") request_files = Some file ->
  App.filename file ≠ [] ->
  App.save_error srv (App.os_path_join App.UPLOAD_FOLDER (App.filename file))
  = None ->
  let filepath := App.os_path_join App.UPLOAD_FOLDER (App.filename file) in
  let saved := <[App.locate srv filepath := App.stream file]> (files s) in
  App.analyze srv request_files s
  = match analyze_pdf (App.env_of srv saved) filepath
            (mkState saved (calls s)
               (trace s ++ [EvSave filepath (App.stream file)])) with
    | (Ok r, s2) => (Ok (App.Body r 200 (lit "text/plain; charset=utf-8")), s2)
    | (Raise e, s2) => (Raise e, s2)
    end.
Proof.
  intros Hget Hname Hsave filepath saved. unfold App.analyze. rewrite Hget.
  apply truthy_true in Hname. rewrite Hname. cbn [negb].
  rewrite bind_run. fold filepath.
  rewrite (file_save_run srv file filepath s Hsave), bind_run.
  unfold App.analyze_saved. cbn [files]. fold saved.
  by destruct (analyze_pdf _ _ _) as [[r|e] s2].
Qed.

(** X12: the view answers with a JSON error exactly when no file was
    uploaded under the field [file] or the first one has an empty
    name; the status is then 400 and nothing was saved, opened or
    requested. *)
Theorem upload_guards srv request_files s :
  (App.files_get (lit "file") request_files = None ->
   App.analyze srv request_files s
   = (Ok (App.JsonError (lit "No file uploaded") 400), s))
  /\ (forall file,
        App.files_get (lit "file") request_files = Some file ->
        App.filename file = [] ->
        App.analyze srv request_files s
        = (Ok (App.JsonError (lit "Empty filename") 400), s))
  /\ (forall error status s',
        App.analyze srv request_files s
        = (Ok (App.JsonError error status), s') ->
        status = 400 /\ s' = s
        /\ (App.files_get (lit "file") request_files = None
            \/ exists file,
                 App.files_get (lit "file") request_files = Some file
                 /\ App.filename file = [])).
Proof.
  split_and!.
  - intros Hget. unfold App.analyze. by rewrite Hget.
  - intros file Hget Hname. unfold App.analyze. by rewrite Hget, Hname.
  - intros error status s' Hrun.
    destruct (App.files_get (lit "file") request_files) as [file|] eqn:Hget.
    + destruct (App.filename file) as [|c name] eqn:Hname.
      * unfold App.analyze in Hrun. rewrite Hget, Hname in Hrun.
        injection Hrun as _ <- <-. split_and!; [done..|].
        right. by exists file.
      * exfalso. revert Hrun. unfold App.analyze. rewrite Hget, Hname.
        cbn [truthy negb]. rewrite bind_run. unfold App.file_save at 1.
        destruct (App.save_error srv _) as [e|]; [done|].
        rewrite bind_run.
        by destruct (App.analyze_saved srv _ _) as [[r|e] s2].
    + unfold App.analyze in Hrun. rewrite Hget in Hrun.
      injection Hrun as _ <- <-. split_and!; [done..|]. by left.
Qed.

Lemma upload_guards_witness :
  App.analyze MoreSamples.server
    [(lit "file", App.mkFileStorage [] [Byte.x25]);
     (lit "file", MoreSamples.upload)] (init ∅)
  = (Ok (App.JsonError (lit "Empty filename") 400), init ∅).
Proof.
  apply (proj1 (proj2 (upload_guards MoreSamples.server _ (init ∅)))
           (App.mkFileStorage [] [Byte.x25])); reflexivity.
Defined.

(** On a host that resolves [..], the upload named
    [../images/page_1.png] is the scratch file of the first page: the
    analysis writes the image of the page over the uploaded bytes. *)
Lemma upload_overwritten_by_page_image :
  App.os_path_join App.UPLOAD_FOLDER
    (App.filename MoreSamples.traversing_upload)
  = lit "uploads/../images/page_1.png"
  /\ App.locate MoreSamples.resolving_server
       (lit "uploads/../images/page_1.png")
     = locate MoreSamples.resolving_host (page_image_path 0)
  /\ files (App.analyze MoreSamples.resolving_server
              [(lit "file", MoreSamples.traversing_upload)] (init ∅)).2
       !! App.locate MoreSamples.resolving_server
            (lit "uploads/../images/page_1.png")
     = Some Samples.png1.
Proof. split_and!; reflexivity. Qed.

(** X13: an upload that passes the guards and is saved is stored under
    the name the client gave it, unchanged: at that very path when the
    name starts with a slash, outside the upload folder, and at
    [uploads/] followed by the name otherwise; the save is the first
    thing the view logs.  Whatever the outcome of the analysis, the
    file is still in the store afterwards, with the uploaded bytes,
    provided the path it was saved at names, on the host, none of the
    files the scratch paths of pages name. *)
Theorem upload_is_saved_under_client_name srv request_files s file :
  App.files_get (lit "file") request_files = Some file ->
  App.filename file ≠ [] ->
  App.save_error srv (App.os_path_join App.UPLOAD_FOLDER (App.filename file))
  = None ->
  App.os_path_join App.UPLOAD_FOLDER (App.filename file)
  = (if bool_decide (head (App.filename file) = Some App.SLASH)
     then App.filename file
     else lit "uploads/" ++ App.filename file)
  /\ head (events (App.analyze srv request_files) s)
     = Some (EvSave (App.os_path_join App.UPLOAD_FOLDER (App.filename file))
               (App.stream file))
  /\ ((forall k,
         App.locate srv (App.os_path_join App.UPLOAD_FOLDER (App.filename file))
         ≠ locate (App.server_host srv) (page_image_path k)) ->
      files (App.analyze srv request_files s).2
        !! App.locate srv
             (App.os_path_join App.UPLOAD_FOLDER (App.filename file))
      = Some (App.stream file)).
Proof.
  intros Hget Hname Hsave.
  pose proof (analyze_run srv request_files s file Hget Hname Hsave) as Hrun.
  cbn zeta in Hrun.
  set (filepath := App.os_path_join App.UPLOAD_FOLDER (App.filename file)) in *.
  set (saved := <[App.locate srv filepath := App.stream file]> (files s)) in *.
  set (s1 := mkState saved (calls s)
               (trace s ++ [EvSave filepath (App.stream file)])) in *.
  set (env := App.env_of srv saved) in *.
  assert ((App.analyze srv request_files s).2 = (analyze_pdf env filepath s1).2)
    as Hstate.
  { rewrite Hrun. by destruct (analyze_pdf env filepath s1) as [[r|e] s2]. }
  split_and!.
  - apply os_path_join_uploads.
  - destruct (analyze_pdf_log env filepath s1) as (evs & Hevs).
    erewrite events_of_trace.
    2:{ rewrite Hstate, Hevs. unfold s1. cbn [trace].
        by rewrite <- app_assoc. }
    done.
  - intros Hapart. rewrite Hstate, analyze_pdf_frame.
    + apply lookup_insert_eq.
    + exact Hapart.
Qed.

Lemma upload_is_saved_under_client_name_witness :
  files (App.analyze MoreSamples.server
           [(lit "file", MoreSamples.absolute_upload)] (init ∅)).2
    !! lit "/etc/cron.d/job"
  = Some [Byte.x2a].
Proof.
  assert (App.filename MoreSamples.absolute_upload ≠ []) as Hname by done.
  refine (proj2 (proj2 (upload_is_saved_under_client_name MoreSamples.server
                          [(lit "file", MoreSamples.absolute_upload)] (init ∅)
                          MoreSamples.absolute_upload eq_refl Hname eq_refl))
            _).
  intros k Heq. apply (f_equal head) in Heq. discriminate Heq.
Defined.

(** X14: past the guards and the save, the document analysed is the
    uploaded bytes as the PDF library reads them; the view answers 200
    with the summary of [analyze_pdf] as plain text, and an exception
    of the analysis, that of an upload that does not open included, is
    the outcome of the view: none is turned into a JSON error. *)
Theorem upload_is_analysed srv request_files s file :
  App.files_get (lit "file") request_files = Some file ->
  App.filename file ≠ [] ->
  App.save_error srv (App.os_path_join App.UPLOAD_FOLDER (App.filename file))
  = None ->
  let filepath := App.os_path_join App.UPLOAD_FOLDER (App.filename file) in
  let saved := <[App.locate srv filepath := App.stream file]> (files s) in
  let env := App.env_of srv saved in
  let s1 := mkState saved (calls s)
              (trace s ++ [EvSave filepath (App.stream file)]) in
  fitz_open env filepath = App.pdf_open srv (App.stream file)
  /\ (forall r s2,
        analyze_pdf env filepath s1 = (Ok r, s2) ->
        App.analyze srv request_files s
        = (Ok (App.Body r 200 (lit "text/plain; charset=utf-8")), s2))
  /\ (forall e s2,
        analyze_pdf env filepath s1 = (Raise e, s2) ->
        App.analyze srv request_files s = (Raise e, s2))
  /\ (forall e,
        App.pdf_open srv (App.stream file) = Raise e ->
        (App.analyze srv request_files s).1 = Raise e).
Proof.
  intros Hget Hname Hsave filepath saved env s1.
  pose proof (analyze_run srv request_files s file Hget Hname Hsave) as Hrun.
  cbn zeta in Hrun. fold filepath saved env s1 in Hrun.
  assert (fitz_open env filepath = App.pdf_open srv (App.stream file)) as Hopen.
  { unfold env, App.env_of, saved. cbn [fitz_open].
    by rewrite lookup_insert_eq. }
  split_and!; try done.
  - intros r s2 Hpdf. by rewrite Hrun, Hpdf.
  - intros e s2 Hpdf. by rewrite Hrun, Hpdf.
  - intros e He. rewrite Hrun, analyze_pdf_run, extract_vpat_text_run.
    by rewrite Hopen, He.
Qed.

Lemma upload_is_analysed_witness :
  (App.analyze MoreSamples.server [(lit "file", MoreSamples.upload)]
     (init ∅)).1
  = Ok (App.Body (lit "1.1.1 A - Supports - x") 200
          (lit "text/plain; charset=utf-8")).
Proof.
  assert (App.filename MoreSamples.upload ≠ []) as Hname by done.
  destruct (upload_is_analysed MoreSamples.server
              [(lit "file", MoreSamples.upload)] (init ∅) MoreSamples.upload
              eq_refl Hname eq_refl)
    as (_ & Hok & _).
  erewrite Hok; [reflexivity|].
  apply surjective_pairing.
Defined.

End Upload.
